(** * Threat Detector ML Service: the inference-serving pipeline

    A shallow embedding of [ml-service/app/main.py]: the feature schema
    ([NetworkTrafficFeatures]), the encoder ([preprocess_features]), the
    model handle ([load_model] and the module globals), the two prediction
    handlers ([predict], [predict_batch]) and [health_check].

    Python's module globals, the clock, the logger and the calls made on the
    loaded classifier are threaded through a state-and-exception monad [M];
    numbers are Python numbers ([Z] for [int], IEEE binary64 as
    [spec_float] for [float]). *)

From Stdlib Require Import ZArith List String Bool Lia.
From Stdlib Require Import Floats.SpecFloat.
From stdpp Require Import base option list gmap strings pretty.

Open Scope string_scope.
Open Scope Z_scope.

(** ** Python values *)

(** A Python [float]: an IEEE 754 binary64 value. *)
Definition float : Type := spec_float.
Definition prec : Z := 53.
Definition emax : Z := 1024.

(** [float(n)] for a Python [int] (round to nearest, ties to even). *)
Definition float_of_int (n : Z) : float := binary_normalize prec emax n 0 false.
Definition fsub : float → float → float := SFsub prec emax.
Definition fmul : float → float → float := SFmul prec emax.
Definition fle : float → float → bool := SFleb.
Definition is_nan (x : float) : bool :=
  match x with S754_nan => true | _ => false end.

(** The numbers a feature can hold, and the values of [features.dict()]. *)
Inductive num : Type :=
| NInt (n : Z)
| NFloat (x : float).

Inductive pyval : Type :=
| PNum (v : num)
| PStr (s : string).

(** ** Exceptions *)

(** [HTTPException] is what a handler raises on purpose; [Exception] stands
    for every other exception below Python's [Exception] class, of which the
    program only ever observes [str(e)].  These are the exceptions the
    [except Exception] clauses of the program catch.  What is raised outside
    that class ([KeyboardInterrupt], [SystemExit]) ends the process and is
    not part of this model: nothing below speaks of it. *)
Inductive exn : Type :=
| HTTPException (status_code : Z) (detail : string)
| Exception (msg : string).

Definition str (e : exn) : string :=
  match e with
  | HTTPException status_code detail => pretty status_code +:+ ": " +:+ detail
  | Exception msg => msg
  end.

Inductive outcome (A : Type) : Type :=
| Ok (a : A)
| Raise (e : exn).
Arguments Ok {A} a.
Arguments Raise {A} e.

(** ** The feature schema (the fields of [NetworkTrafficFeatures]) *)

Record NetworkTrafficFeatures : Type := {
  duration : float;
  protocol_type : string;
  service : string;
  flag : string;
  src_bytes : Z;
  dst_bytes : Z;
  land : Z;
  wrong_fragment : Z;
  urgent : Z;
  hot : Z;
  num_failed_logins : Z;
  logged_in : Z;
  num_compromised : Z;
  root_shell : Z;
  su_attempted : Z;
  num_root : Z;
  num_file_creations : Z;
  num_shells : Z;
  num_access_files : Z;
  num_outbound_cmds : Z;
  is_host_login : Z;
  is_guest_login : Z;
  count : Z;
  srv_count : Z;
  serror_rate : float;
  srv_serror_rate : float;
  rerror_rate : float;
  srv_rerror_rate : float;
  same_srv_rate : float;
  diff_srv_rate : float;
  srv_diff_host_rate : float;
  dst_host_count : Z;
  dst_host_srv_count : Z;
  dst_host_same_srv_rate : float;
  dst_host_diff_srv_rate : float;
  dst_host_same_src_port_rate : float;
  dst_host_srv_diff_host_rate : float;
  dst_host_serror_rate : float;
  dst_host_srv_serror_rate : float;
  dst_host_rerror_rate : float;
  dst_host_srv_rerror_rate : float
}.

(** The module constant [FEATURE_NAMES]. *)
Definition FEATURE_NAMES : list string := [
  "duration"; "protocol_type"; "service"; "flag"; "src_bytes"; "dst_bytes";
  "land"; "wrong_fragment"; "urgent"; "hot"; "num_failed_logins"; "logged_in";
  "num_compromised"; "root_shell"; "su_attempted"; "num_root"; "num_file_creations";
  "num_shells"; "num_access_files"; "num_outbound_cmds"; "is_host_login";
  "is_guest_login"; "count"; "srv_count"; "serror_rate"; "srv_serror_rate";
  "rerror_rate"; "srv_rerror_rate"; "same_srv_rate"; "diff_srv_rate";
  "srv_diff_host_rate"; "dst_host_count"; "dst_host_srv_count";
  "dst_host_same_srv_rate"; "dst_host_diff_srv_rate"; "dst_host_same_src_port_rate";
  "dst_host_srv_diff_host_rate"; "dst_host_serror_rate"; "dst_host_srv_serror_rate";
  "dst_host_rerror_rate"; "dst_host_srv_rerror_rate"
].

(** The three fields declared [str]. *)
Definition categorical : list string := ["protocol_type"; "service"; "flag"].

Definition is_categorical (name : string) : bool :=
  bool_decide (name ∈ categorical).

(** [features.dict()]: field name to value, in declaration order. *)
Definition dict (features : NetworkTrafficFeatures) : list (string * pyval) := [
  ("duration", PNum (NFloat (duration features)));
  ("protocol_type", PStr (protocol_type features));
  ("service", PStr (service features));
  ("flag", PStr (flag features));
  ("src_bytes", PNum (NInt (src_bytes features)));
  ("dst_bytes", PNum (NInt (dst_bytes features)));
  ("land", PNum (NInt (land features)));
  ("wrong_fragment", PNum (NInt (wrong_fragment features)));
  ("urgent", PNum (NInt (urgent features)));
  ("hot", PNum (NInt (hot features)));
  ("num_failed_logins", PNum (NInt (num_failed_logins features)));
  ("logged_in", PNum (NInt (logged_in features)));
  ("num_compromised", PNum (NInt (num_compromised features)));
  ("root_shell", PNum (NInt (root_shell features)));
  ("su_attempted", PNum (NInt (su_attempted features)));
  ("num_root", PNum (NInt (num_root features)));
  ("num_file_creations", PNum (NInt (num_file_creations features)));
  ("num_shells", PNum (NInt (num_shells features)));
  ("num_access_files", PNum (NInt (num_access_files features)));
  ("num_outbound_cmds", PNum (NInt (num_outbound_cmds features)));
  ("is_host_login", PNum (NInt (is_host_login features)));
  ("is_guest_login", PNum (NInt (is_guest_login features)));
  ("count", PNum (NInt (count features)));
  ("srv_count", PNum (NInt (srv_count features)));
  ("serror_rate", PNum (NFloat (serror_rate features)));
  ("srv_serror_rate", PNum (NFloat (srv_serror_rate features)));
  ("rerror_rate", PNum (NFloat (rerror_rate features)));
  ("srv_rerror_rate", PNum (NFloat (srv_rerror_rate features)));
  ("same_srv_rate", PNum (NFloat (same_srv_rate features)));
  ("diff_srv_rate", PNum (NFloat (diff_srv_rate features)));
  ("srv_diff_host_rate", PNum (NFloat (srv_diff_host_rate features)));
  ("dst_host_count", PNum (NInt (dst_host_count features)));
  ("dst_host_srv_count", PNum (NInt (dst_host_srv_count features)));
  ("dst_host_same_srv_rate", PNum (NFloat (dst_host_same_srv_rate features)));
  ("dst_host_diff_srv_rate", PNum (NFloat (dst_host_diff_srv_rate features)));
  ("dst_host_same_src_port_rate", PNum (NFloat (dst_host_same_src_port_rate features)));
  ("dst_host_srv_diff_host_rate", PNum (NFloat (dst_host_srv_diff_host_rate features)));
  ("dst_host_serror_rate", PNum (NFloat (dst_host_serror_rate features)));
  ("dst_host_srv_serror_rate", PNum (NFloat (dst_host_srv_serror_rate features)));
  ("dst_host_rerror_rate", PNum (NFloat (dst_host_rerror_rate features)));
  ("dst_host_srv_rerror_rate", PNum (NFloat (dst_host_srv_rerror_rate features)))
].

(** Attribute access by name, [getattr(features, name)]. *)
Definition getattr (features : NetworkTrafficFeatures) (name : string) : option pyval :=
  (list_to_map (dict features) : gmap string pyval) !! name.

(** ** numpy arrays *)

(** An [ndarray] as the program sees it: its shape and its elements in
    row-major order.  The elements are kept as the numbers they were built
    from; the storage type numpy picks for them is not part of the program.
    Equality of arrays is therefore finer here than in numpy, which stores
    this mixed list as 64-bit floats and so rounds integers above [2^53]:
    two arrays that are equal here are equal there, not the other way round. *)
Record ndarray : Type := {
  shape : list Z;
  data : list num
}.

Definition size (a : ndarray) : Z := Z.of_nat (length (data a)).

(** [np.array(l)] for a flat list of numbers. *)
Definition np_array (l : list num) : ndarray :=
  {| shape := [Z.of_nat (length l)]; data := l |}.

(** [a.reshape(d0, d1)]; one dimension may be [-1] and is then inferred. *)
Definition reshape (a : ndarray) (d0 d1 : Z) : outcome ndarray :=
  if (d0 <? -1) || (d1 <? -1) then
    Raise (Exception "negative dimensions not allowed")
  else if (d0 =? -1) && (d1 =? -1) then
    Raise (Exception "can only specify one unknown dimension")
  else if d1 =? -1 then
    if (0 <? d0) && (size a mod d0 =? 0)
    then Ok {| shape := [d0; size a / d0]; data := data a |}
    else Raise (Exception "cannot reshape array")
  else if d0 =? -1 then
    if (0 <? d1) && (size a mod d1 =? 0)
    then Ok {| shape := [size a / d1; d1]; data := data a |}
    else Raise (Exception "cannot reshape array")
  else if d0 * d1 =? size a
    then Ok {| shape := [d0; d1]; data := data a |}
    else Raise (Exception "cannot reshape array").

(** [np.maximum] on two floats: a NaN on the left wins, otherwise the
    larger one, the left one on a tie. *)
Definition np_maximum (a b : float) : float :=
  if fle b a || is_nan a then a else b.

(** [np.max(p)] over all the elements of a two-dimensional array. *)
Definition np_max (p : list (list float)) : outcome float :=
  match concat p with
  | [] => Raise (Exception
      "zero-size array to reduction operation maximum which has no identity")
  | x :: xs => Ok (fold_left np_maximum xs x)
  end.

(** [ys[0]] on a one-dimensional array of class labels. *)
Definition index0 (ys : list Z) : outcome Z :=
  match ys with
  | [] => Raise (Exception "index 0 is out of bounds for axis 0 with size 0")
  | y :: _ => Ok y
  end.

(** ** The encoder *)

(** [preprocess_features(features)]: the numeric fields, in the order the
    source lists them, as a [1 x n] array. *)
Definition preprocess_features (features : NetworkTrafficFeatures) : outcome ndarray :=
  let feature_dict := dict features in
  let numeric_features := [
    NFloat (duration features); NInt (src_bytes features); NInt (dst_bytes features);
    NInt (land features); NInt (wrong_fragment features); NInt (urgent features);
    NInt (hot features);
    NInt (num_failed_logins features); NInt (logged_in features);
    NInt (num_compromised features);
    NInt (root_shell features); NInt (su_attempted features); NInt (num_root features);
    NInt (num_file_creations features); NInt (num_shells features);
    NInt (num_access_files features);
    NInt (num_outbound_cmds features); NInt (is_host_login features);
    NInt (is_guest_login features);
    NInt (count features); NInt (srv_count features); NFloat (serror_rate features);
    NFloat (srv_serror_rate features); NFloat (rerror_rate features);
    NFloat (srv_rerror_rate features);
    NFloat (same_srv_rate features); NFloat (diff_srv_rate features);
    NFloat (srv_diff_host_rate features);
    NInt (dst_host_count features); NInt (dst_host_srv_count features);
    NFloat (dst_host_same_srv_rate features); NFloat (dst_host_diff_srv_rate features);
    NFloat (dst_host_same_src_port_rate features);
    NFloat (dst_host_srv_diff_host_rate features);
    NFloat (dst_host_serror_rate features); NFloat (dst_host_srv_serror_rate features);
    NFloat (dst_host_rerror_rate features); NFloat (dst_host_srv_rerror_rate features)
  ] in
  reshape (np_array numeric_features) 1 (-1).

(** ** The loaded classifier, the clock and the response models *)

(** A [datetime] as the program observes it: through [.timestamp()]. *)
Record datetime : Type := { timestamp : float }.

(** A classifier: an opaque object, any Python object but [None], with
    the two methods the handlers call on it.  Either may raise, which also
    covers an object that lacks the method.  What [joblib.load] returns and
    what the global [model] holds is an [option Model.t], where [None] is
    Python's [None]. *)
Module Model.
Record t : Type := {
  predict : ndarray → outcome (list Z);
  predict_proba : ndarray → outcome (list (list float))
}.
End Model.

Module PredictionResponse.
Record t : Type := {
  prediction : string;
  confidence : float;
  threat_type : option string;
  model_version : string;
  timestamp : datetime
}.
End PredictionResponse.

Module BatchPredictionRequest.
Record t : Type := { features : list NetworkTrafficFeatures }.
End BatchPredictionRequest.

Module BatchPredictionResponse.
Record t : Type := {
  predictions : list PredictionResponse.t;
  total_processed : Z;
  processing_time_ms : float
}.
End BatchPredictionResponse.

Module HealthResponse.
Record t : Type := {
  status : string;
  model_loaded : bool;
  model_version : option string;
  model_loaded_at : option datetime;
  uptime_seconds : float
}.
End HealthResponse.

(** ** The world the service runs in *)

(** What the program did, in order: its log lines and the calls it made to
    the encoder, to the classifier and to [joblib]. *)
Inductive event : Type :=
| LogInfo (msg : string)
| LogWarning (msg : string)
| LogError (msg : string)
| Encode (features : NetworkTrafficFeatures)
| Predict (x : ndarray)
| PredictProba (x : ndarray)
| JoblibLoad (path : string).

(** The environment: process variables, the file system as [load_model]
    probes it, and the two clocks, indexed by the number of clock reads
    made so far. *)
Record Env : Type := {
  getenv : string → option string;
  path_exists : string → bool;
  joblib_load : string → outcome (option Model.t);
  time_time : nat → float;
  utcnow : nat → datetime
}.

(** The module globals [model] and [model_loaded_at], with the clock
    position and the trace. *)
Record State : Type := {
  model : option Model.t;
  model_loaded_at : option datetime;
  clock : nat;
  trace : list event
}.

(** The global [model_version] is never assigned after module load. *)
Definition model_version : string := "v1.0".

(** The state at module load: [model = None], [model_loaded_at = None]. *)
Definition initial : State :=
  {| model := None; model_loaded_at := None; clock := 0%nat; trace := [] |}.

(** [model is not None]. *)
Definition is_ready (s : State) : bool :=
  match model s with Some _ => true | None => false end.

(** ** The monad of handlers *)

Definition M (A : Type) : Type := Env → State → outcome A * State.

#[global] Instance M_ret : MRet M := λ A a _ s, (Ok a, s).

#[global] Instance M_bind : MBind M := λ A B f m env s,
  match m env s with
  | (Ok a, s') => f a env s'
  | (Raise e, s') => (Raise e, s')
  end.

Definition raise {A} (e : exn) : M A := λ _ s, (Raise e, s).

Definition lift {A} (o : outcome A) : M A := λ _ s, (o, s).

(** [try: body  except Exception as e: handler(e)].  What the body did to
    the state before it raised stays done. *)
Definition try_except {A} (body : M A) (handler : exn → M A) : M A := λ env s,
  match body env s with
  | (Ok a, s') => (Ok a, s')
  | (Raise e, s') => handler e env s'
  end.

Definition gets {A} (f : State → A) : M A := λ _ s, (Ok (f s), s).

Definition asks {A} (f : Env → A) : M A := λ env s, (Ok (f env), s).

Definition emit (ev : event) : M unit := λ _ s,
  (Ok tt, {| model := model s; model_loaded_at := model_loaded_at s;
             clock := clock s; trace := trace s ++ [ev] |}).

Definition set_model (m : option Model.t) : M unit := λ _ s,
  (Ok tt, {| model := m; model_loaded_at := model_loaded_at s;
             clock := clock s; trace := trace s |}).

Definition set_model_loaded_at (d : datetime) : M unit := λ _ s,
  (Ok tt, {| model := model s; model_loaded_at := Some d;
             clock := clock s; trace := trace s |}).

Definition tick : M nat := λ _ s,
  (Ok (clock s), {| model := model s; model_loaded_at := model_loaded_at s;
                    clock := S (clock s); trace := trace s |}).

(** [time.time()] and [datetime.utcnow()]. *)
Definition time_time_ : M float := n ← tick; asks (λ env, time_time env n).
Definition datetime_utcnow : M datetime := n ← tick; asks (λ env, utcnow env n).

(** [os.getenv(name, default)]. *)
Definition os_getenv (name default : string) : M string :=
  asks (λ env, match getenv env name with Some v => v | None => default end).

Definition os_path_exists (path : string) : M bool :=
  asks (λ env, path_exists env path).

Definition joblib_load_ (path : string) : M (option Model.t) :=
  emit (JoblibLoad path);; o ← asks (λ env, joblib_load env path); lift o.

Definition logger_info (msg : string) : M unit := emit (LogInfo msg).
Definition logger_warning (msg : string) : M unit := emit (LogWarning msg).
Definition logger_error (msg : string) : M unit := emit (LogError msg).

(** A call of [preprocess_features] from a handler. *)
Definition call_preprocess_features (features : NetworkTrafficFeatures) : M ndarray :=
  emit (Encode features);; lift (preprocess_features features).

(** [model.predict(x)] and [model.predict_proba(x)] on the global. *)
Definition model_predict (x : ndarray) : M (list Z) :=
  m ← gets model;
  match m with
  | None => raise (Exception "'NoneType' object has no attribute 'predict'")
  | Some m => emit (Predict x);; lift (Model.predict m x)
  end.

Definition model_predict_proba (x : ndarray) : M (list (list float)) :=
  m ← gets model;
  match m with
  | None => raise (Exception "'NoneType' object has no attribute 'predict_proba'")
  | Some m => emit (PredictProba x);; lift (Model.predict_proba m x)
  end.

(** [PredictionResponse(...)]: the [timestamp] field defaults to
    [datetime.utcnow()]. *)
Definition new_PredictionResponse (prediction : string) (confidence : float)
    (threat_type : option string) (version : string) : M PredictionResponse.t :=
  now ← datetime_utcnow;
  mret {| PredictionResponse.prediction := prediction;
          PredictionResponse.confidence := confidence;
          PredictionResponse.threat_type := threat_type;
          PredictionResponse.model_version := version;
          PredictionResponse.timestamp := now |}.

(** ** The model handle *)

Definition load_model : M bool :=
  model_path ← os_getenv "MODEL_PATH" "/app/model/rf_model.pkl";
  try_except
    (found ← os_path_exists model_path;
     if found : bool then
       m ← joblib_load_ model_path;
       set_model m;;
       now ← datetime_utcnow;
       set_model_loaded_at now;;
       logger_info ("Model loaded successfully from " +:+ model_path);;
       mret true
     else
       logger_warning ("Model file not found at " +:+ model_path);;
       logger_info "Model will need to be trained first";;
       mret false)
    (λ e,
       logger_error ("Error loading model: " +:+ str e);;
       mret false).

Definition startup_event : M unit :=
  logger_info "Starting ML Service...";;
  load_model;;
  mret tt.

(** ** The handlers *)

Definition not_loaded : exn :=
  HTTPException 503 "Model not loaded. Please train and load the model first.".

(** [GET /health]. *)
Definition health_check : M HealthResponse.t :=
  t1 ← time_time_;
  loaded_at ← gets model_loaded_at;
  t0 ← match loaded_at with
       | Some d => mret (timestamp d)
       | None => time_time_
       end;
  let uptime := fsub t1 t0 in
  m ← gets model;
  mret {| HealthResponse.status := if m is Some _ then "healthy" else "degraded";
          HealthResponse.model_loaded := if m is Some _ then true else false;
          HealthResponse.model_version := if m is Some _ then Some model_version else None;
          HealthResponse.model_loaded_at := loaded_at;
          HealthResponse.uptime_seconds := uptime |}.

(** [POST /predict]. *)
Definition predict (features : NetworkTrafficFeatures) : M PredictionResponse.t :=
  m ← gets model;
  match m with
  | None => raise not_loaded
  | Some _ =>
      try_except
        (feature_array ← call_preprocess_features features;
         ys ← model_predict feature_array;
         prediction ← lift (index0 ys);
         p ← model_predict_proba feature_array;
         confidence ← lift (np_max p);
         let prediction_label := if prediction =? 1 then "malicious" else "normal" in
         let threat_type := if prediction =? 1 then Some "unknown" else None in
         new_PredictionResponse prediction_label confidence threat_type model_version)
        (λ e,
           logger_error ("Prediction error: " +:+ str e);;
           raise (HTTPException 500 ("Prediction failed: " +:+ str e)))
  end.

(** The [for features in request.features] loop of [predict_batch],
    appending to [predictions]. *)
Fixpoint batch_loop (items : list NetworkTrafficFeatures)
    (predictions : list PredictionResponse.t) : M (list PredictionResponse.t) :=
  match items with
  | [] => mret predictions
  | features :: rest =>
      feature_array ← call_preprocess_features features;
      ys ← model_predict feature_array;
      prediction ← lift (index0 ys);
      p ← model_predict_proba feature_array;
      confidence ← lift (np_max p);
      let prediction_label := if prediction =? 1 then "malicious" else "normal" in
      let threat_type := if prediction =? 1 then Some "unknown" else None in
      r ← new_PredictionResponse prediction_label confidence threat_type model_version;
      batch_loop rest (predictions ++ [r])
  end.

(** [POST /predict/batch]. *)
Definition predict_batch (request : BatchPredictionRequest.t)
    : M BatchPredictionResponse.t :=
  m ← gets model;
  match m with
  | None => raise not_loaded
  | Some _ =>
      start_time ← time_time_;
      try_except
        (predictions ← batch_loop (BatchPredictionRequest.features request) [];
         now ← time_time_;
         let processing_time := fmul (fsub now start_time) (float_of_int 1000) in
         mret {| BatchPredictionResponse.predictions := predictions;
                 BatchPredictionResponse.total_processed :=
                   Z.of_nat (length predictions);
                 BatchPredictionResponse.processing_time_ms := processing_time |})
        (λ e,
           logger_error ("Batch prediction error: " +:+ str e);;
           raise (HTTPException 500 ("Batch prediction failed: " +:+ str e)))
  end.

(** ** Schema validation *)

(** The class body of [NetworkTrafficFeatures] as a table: for each field
    its annotation and the arguments of its [Field(...)]: the default, where
    [...] ([Ellipsis]) declares the field required, and [ge] / [le]. *)
Inductive annotation : Type := TFloat | TInt | TStr.

Inductive default_value : Type :=
| Ellipsis
| Default (v : pyval).

Record FieldInfo : Type := {
  field_type : annotation;
  field_default : default_value;
  ge : option Z;
  le : option Z
}.

Definition Field (ty : annotation) (default : default_value)
    (ge le : option Z) : FieldInfo :=
  {| field_type := ty; field_default := default; ge := ge; le := le |}.

Definition model_fields : list (string * FieldInfo) := [
  ("duration", Field TFloat Ellipsis None None);
  ("protocol_type", Field TStr Ellipsis None None);
  ("service", Field TStr Ellipsis None None);
  ("flag", Field TStr Ellipsis None None);
  ("src_bytes", Field TInt Ellipsis (Some 0) None);
  ("dst_bytes", Field TInt Ellipsis (Some 0) None);
  ("land", Field TInt Ellipsis (Some 0) (Some 1));
  ("wrong_fragment", Field TInt Ellipsis (Some 0) None);
  ("urgent", Field TInt Ellipsis (Some 0) None);
  ("hot", Field TInt Ellipsis (Some 0) None);
  ("num_failed_logins", Field TInt Ellipsis (Some 0) None);
  ("logged_in", Field TInt Ellipsis (Some 0) (Some 1));
  ("num_compromised", Field TInt Ellipsis (Some 0) None);
  ("root_shell", Field TInt Ellipsis (Some 0) (Some 1));
  ("su_attempted", Field TInt Ellipsis (Some 0) (Some 1));
  ("num_root", Field TInt Ellipsis (Some 0) None);
  ("num_file_creations", Field TInt Ellipsis (Some 0) None);
  ("num_shells", Field TInt Ellipsis (Some 0) None);
  ("num_access_files", Field TInt Ellipsis (Some 0) None);
  ("num_outbound_cmds", Field TInt Ellipsis (Some 0) None);
  ("is_host_login", Field TInt Ellipsis (Some 0) (Some 1));
  ("is_guest_login", Field TInt Ellipsis (Some 0) (Some 1));
  ("count", Field TInt Ellipsis (Some 0) None);
  ("srv_count", Field TInt Ellipsis (Some 0) None);
  ("serror_rate", Field TFloat Ellipsis (Some 0) (Some 1));
  ("srv_serror_rate", Field TFloat Ellipsis (Some 0) (Some 1));
  ("rerror_rate", Field TFloat Ellipsis (Some 0) (Some 1));
  ("srv_rerror_rate", Field TFloat Ellipsis (Some 0) (Some 1));
  ("same_srv_rate", Field TFloat Ellipsis (Some 0) (Some 1));
  ("diff_srv_rate", Field TFloat Ellipsis (Some 0) (Some 1));
  ("srv_diff_host_rate", Field TFloat Ellipsis (Some 0) (Some 1));
  ("dst_host_count", Field TInt Ellipsis (Some 0) None);
  ("dst_host_srv_count", Field TInt Ellipsis (Some 0) None);
  ("dst_host_same_srv_rate", Field TFloat Ellipsis (Some 0) (Some 1));
  ("dst_host_diff_srv_rate", Field TFloat Ellipsis (Some 0) (Some 1));
  ("dst_host_same_src_port_rate", Field TFloat Ellipsis (Some 0) (Some 1));
  ("dst_host_srv_diff_host_rate", Field TFloat Ellipsis (Some 0) (Some 1));
  ("dst_host_serror_rate", Field TFloat Ellipsis (Some 0) (Some 1));
  ("dst_host_srv_serror_rate", Field TFloat Ellipsis (Some 0) (Some 1));
  ("dst_host_rerror_rate", Field TFloat Ellipsis (Some 0) (Some 1));
  ("dst_host_srv_rerror_rate", Field TFloat Ellipsis (Some 0) (Some 1))
].

(** An untyped input value, as decoded from a request body. *)
Inductive json : Type :=
| JNull
| JBool (b : bool)
| JInt (n : Z)
| JFloat (x : float)
| JStr (s : string)
| JOther.

(** What is wrong with one field. *)
Inductive problem : Type :=
| Missing
| WrongType
| NotGe (bound : Z)
| NotLe (bound : Z).

(** [v >= bound] and [v <= bound] on validated numbers. *)
Definition range_int (info : FieldInfo) (n : Z) : option problem :=
  match ge info with
  | Some b => if b <=? n then
                match le info with
                | Some b' => if n <=? b' then None else Some (NotLe b')
                | None => None
                end
              else Some (NotGe b)
  | None => match le info with
            | Some b' => if n <=? b' then None else Some (NotLe b')
            | None => None
            end
  end.

Definition range_float (info : FieldInfo) (x : float) : option problem :=
  match ge info with
  | Some b => if fle (float_of_int b) x then
                match le info with
                | Some b' => if fle x (float_of_int b') then None else Some (NotLe b')
                | None => None
                end
              else Some (NotGe b)
  | None => match le info with
            | Some b' => if fle x (float_of_int b') then None else Some (NotLe b')
            | None => None
            end
  end.

Section Validation.

(** How pydantic converts an input value to the annotated type.  Which
    inputs it accepts (numeric strings for [int], integers for [float],
    ...) depends on the installed version and is left open. *)
Context (to_float : json → option float)
        (to_int : json → option Z)
        (to_str : json → option string).

(** Modelled from the spec: the check of one field, which pydantic does
    and the source does not contain (the class only declares the fields).
    Presence where the declaration requires it, then conversion to the
    annotated type, then the declared range.  [None] when the field is
    fine. *)
Definition check (info : FieldInfo) (v : option json) : option problem :=
  match v with
  | None =>
      match field_default info with
      | Ellipsis => Some Missing
      | Default _ => None
      end
  | Some j =>
      match field_type info with
      | TFloat => match to_float j with
                  | Some x => range_float info x
                  | None => Some WrongType
                  end
      | TInt => match to_int j with
                | Some n => range_int info n
                | None => Some WrongType
                end
      | TStr => match to_str j with
                | Some _ => None
                | None => Some WrongType
                end
      end
  end.

Definition get_float (d : gmap string json) (name : string) : float :=
  default S754_nan (d !! name ≫= to_float).
Definition get_int (d : gmap string json) (name : string) : Z :=
  default 0 (d !! name ≫= to_int).
Definition get_str (d : gmap string json) (name : string) : string :=
  default "" (d !! name ≫= to_str).

(** The object built from the converted values.  No field of the class
    declares a default, so a value that is absent always comes with an
    error and never reaches the object. *)
Definition construct (d : gmap string json) : NetworkTrafficFeatures := {|
  duration := get_float d "duration";
  protocol_type := get_str d "protocol_type";
  service := get_str d "service";
  flag := get_str d "flag";
  src_bytes := get_int d "src_bytes";
  dst_bytes := get_int d "dst_bytes";
  land := get_int d "land";
  wrong_fragment := get_int d "wrong_fragment";
  urgent := get_int d "urgent";
  hot := get_int d "hot";
  num_failed_logins := get_int d "num_failed_logins";
  logged_in := get_int d "logged_in";
  num_compromised := get_int d "num_compromised";
  root_shell := get_int d "root_shell";
  su_attempted := get_int d "su_attempted";
  num_root := get_int d "num_root";
  num_file_creations := get_int d "num_file_creations";
  num_shells := get_int d "num_shells";
  num_access_files := get_int d "num_access_files";
  num_outbound_cmds := get_int d "num_outbound_cmds";
  is_host_login := get_int d "is_host_login";
  is_guest_login := get_int d "is_guest_login";
  count := get_int d "count";
  srv_count := get_int d "srv_count";
  serror_rate := get_float d "serror_rate";
  srv_serror_rate := get_float d "srv_serror_rate";
  rerror_rate := get_float d "rerror_rate";
  srv_rerror_rate := get_float d "srv_rerror_rate";
  same_srv_rate := get_float d "same_srv_rate";
  diff_srv_rate := get_float d "diff_srv_rate";
  srv_diff_host_rate := get_float d "srv_diff_host_rate";
  dst_host_count := get_int d "dst_host_count";
  dst_host_srv_count := get_int d "dst_host_srv_count";
  dst_host_same_srv_rate := get_float d "dst_host_same_srv_rate";
  dst_host_diff_srv_rate := get_float d "dst_host_diff_srv_rate";
  dst_host_same_src_port_rate := get_float d "dst_host_same_src_port_rate";
  dst_host_srv_diff_host_rate := get_float d "dst_host_srv_diff_host_rate";
  dst_host_serror_rate := get_float d "dst_host_serror_rate";
  dst_host_srv_serror_rate := get_float d "dst_host_srv_serror_rate";
  dst_host_rerror_rate := get_float d "dst_host_rerror_rate";
  dst_host_srv_rerror_rate := get_float d "dst_host_srv_rerror_rate"
|}.

(** Modelled from the spec: the errors of an input, one entry per field
    that fails its check, in declaration order ("each independently
    checked, collect-all, not fail-fast"). *)
Definition collect_errors (d : gmap string json)
    (fields : list (string * FieldInfo)) : list (string * problem) :=
  omap (λ '(name, info), (λ p, (name, p)) <$> check info (d !! name)) fields.

Definition field_errors (d : gmap string json) : list (string * problem) :=
  collect_errors d model_fields.

(** Modelled from the spec: building a [NetworkTrafficFeatures] from the
    mapping [d].  The validation itself is missing from the source: the
    class has no validator of its own and inherits that of pydantic's
    [BaseModel], which walks all the declared fields, keeps the error of each
    field that fails its check, and raises one [ValidationError] with all
    of them once every field has been seen. *)
Definition validate (d : gmap string json)
    : list (string * problem) + NetworkTrafficFeatures :=
  match field_errors d with
  | [] => inr (construct d)
  | errors => inl errors
  end.

(** What it is for an input to violate a declared field, said from the
    declaration and not from [check]: the attribute is missing though
    required, or its value does not convert to the annotated type, or the
    number it converts to lies below [ge] or above [le]. *)
Definition out_of_range_int (info : FieldInfo) (n : Z) : Prop :=
  (∃ b, ge info = Some b ∧ n < b) ∨ (∃ b, le info = Some b ∧ b < n).

Definition out_of_range_float (info : FieldInfo) (x : float) : Prop :=
  (∃ b, ge info = Some b ∧ fle (float_of_int b) x = false)
  ∨ (∃ b, le info = Some b ∧ fle x (float_of_int b) = false).

Definition violates (info : FieldInfo) (v : option json) : Prop :=
  match v with
  | None => field_default info = Ellipsis
  | Some j =>
      match field_type info with
      | TFloat => match to_float j with
                  | Some x => out_of_range_float info x
                  | None => True
                  end
      | TInt => match to_int j with
                | Some n => out_of_range_int info n
                | None => True
                end
      | TStr => to_str j = None
      end
  end.

(** A field of the schema that the input violates. *)
Definition violated (d : gmap string json) (name : string) : Prop :=
  ∃ info, (name, info) ∈ model_fields ∧ violates info (d !! name).

End Validation.

(** A valid record: every field within the range its declaration gives. *)
Definition in_range (info : FieldInfo) (v : pyval) : bool :=
  match field_type info, v with
  | TFloat, PNum (NFloat x) => if range_float info x is None then true else false
  | TInt, PNum (NInt n) => if range_int info n is None then true else false
  | TStr, PStr _ => true
  | _, _ => false
  end.

Definition valid (features : NetworkTrafficFeatures) : bool :=
  forallb (λ '(name, info),
             match getattr features name with
             | Some v => in_range info v
             | None => false
             end) model_fields.

(** ** Notions used to state the properties *)

(** [features.dict()] without the entries of the categorical fields. *)
Definition strip_categorical (features : NetworkTrafficFeatures)
    : list (string * pyval) :=
  filter (λ kv, kv.1 ∉ categorical) (dict features).

(** Two records that agree on every field but the categorical ones. *)
Definition agree_off_categorical (f1 f2 : NetworkTrafficFeatures) : Prop :=
  strip_categorical f1 = strip_categorical f2.

(** The response [r] carries the label and annotation that go with the
    class [c]: [1] is malicious with threat type unknown, [0] is normal
    with no threat type. *)
Definition mapped (c : Z) (r : PredictionResponse.t) : Prop :=
  (c = 1 → PredictionResponse.prediction r = "malicious"
         ∧ PredictionResponse.threat_type r = Some "unknown")
  ∧ (c = 0 → PredictionResponse.prediction r = "normal"
           ∧ PredictionResponse.threat_type r = None).

(** What one run of the classifier on one record comes to: the class and
    the confidence, or the exception of the first step that raises.  This
    is the sequence of calls in the [try] of [predict] and in the loop of
    [predict_batch], without the trace. *)
Definition classify (m : Model.t) (features : NetworkTrafficFeatures)
    : outcome (Z * float) :=
  match preprocess_features features with
  | Raise e => Raise e
  | Ok x =>
      match Model.predict m x with
      | Raise e => Raise e
      | Ok ys =>
          match index0 ys with
          | Raise e => Raise e
          | Ok c =>
              match Model.predict_proba m x with
              | Raise e => Raise e
              | Ok p =>
                  match np_max p with
                  | Raise e => Raise e
                  | Ok conf => Ok (c, conf)
                  end
              end
          end
      end
  end.

(** The response built for class [c] with confidence [conf] at time [now]. *)
Definition response (c : Z) (conf : float) (now : datetime) : PredictionResponse.t :=
  {| PredictionResponse.prediction := if c =? 1 then "malicious" else "normal";
     PredictionResponse.confidence := conf;
     PredictionResponse.threat_type := if c =? 1 then Some "unknown" else None;
     PredictionResponse.model_version := model_version;
     PredictionResponse.timestamp := now |}.

(** The responses of a whole loop started at clock position [n]. *)
Fixpoint responses (m : Model.t) (env : Env) (n : nat)
    (items : list NetworkTrafficFeatures) : outcome (list PredictionResponse.t) :=
  match items with
  | [] => Ok []
  | features :: rest =>
      match classify m features with
      | Raise e => Raise e
      | Ok (c, conf) =>
          match responses m env (S n) rest with
          | Raise e => Raise e
          | Ok rs => Ok (response c conf (utcnow env n) :: rs)
          end
      end
  end.

(** The model raises while it is asked about [features]. *)
Definition raises_at_model (m : Model.t) (features : NetworkTrafficFeatures) : Prop :=
  ∃ x, preprocess_features features = Ok x ∧
       ((∃ e, Model.predict m x = Raise e) ∨ (∃ e, Model.predict_proba m x = Raise e)).

(** [r] is the prediction the loaded model [m] gives for [features]. *)
Definition prediction_for (m : Model.t) (features : NetworkTrafficFeatures)
    (r : PredictionResponse.t) : Prop :=
  ∃ x c ys p,
    preprocess_features features = Ok x ∧
    Model.predict m x = Ok (c :: ys) ∧
    Model.predict_proba m x = Ok p ∧
    np_max p = Ok (PredictionResponse.confidence r) ∧
    PredictionResponse.prediction r = (if c =? 1 then "malicious" else "normal") ∧
    PredictionResponse.threat_type r = (if c =? 1 then Some "unknown" else None) ∧
    PredictionResponse.model_version r = model_version.

(** Two outcomes of [predict] that tell the caller the same thing: the
    same label, confidence and threat type, or the same failure. *)
Definition same_answer (o1 o2 : outcome PredictionResponse.t) : Prop :=
  match o1, o2 with
  | Ok r1, Ok r2 =>
      PredictionResponse.prediction r1 = PredictionResponse.prediction r2 ∧
      PredictionResponse.confidence r1 = PredictionResponse.confidence r2 ∧
      PredictionResponse.threat_type r1 = PredictionResponse.threat_type r2
  | Raise e1, Raise e2 => e1 = e2
  | _, _ => False
  end.

(** The path [load_model] reads: [MODEL_PATH], or the default. *)
Definition model_path (env : Env) : string :=
  default "/app/model/rf_model.pkl" (getenv env "MODEL_PATH").

(** The artifact [load_model] looks for is there and unpickles. *)
Definition load_succeeds (env : Env) : bool :=
  let model_path :=
    match getenv env "MODEL_PATH" with
    | Some path => path
    | None => "/app/model/rf_model.pkl"
    end in
  path_exists env model_path
  && (if joblib_load env model_path is Ok _ then true else false).

(** A history of load attempts, each in the environment of its time. *)
Fixpoint load_attempts (envs : list Env) (s : State) : State :=
  match envs with
  | [] => s
  | env :: rest => load_attempts rest (load_model env s).2
  end.

(** ** Sample worlds, to run the definitions on *)

Module Sample.

Definition zero : float := float_of_int 0.
Definition one : float := float_of_int 1.

(** A connection record with the given categorical fields, source byte
    count, connection count and SYN error rate; everything else is zero. *)
Definition connection (protocol_type service flag : string)
    (src_bytes count : Z) (serror_rate : float) : NetworkTrafficFeatures := {|
  duration := zero; protocol_type := protocol_type; service := service;
  flag := flag; src_bytes := src_bytes; dst_bytes := 0; land := 0;
  wrong_fragment := 0; urgent := 0;
  hot := 0; num_failed_logins := 0; logged_in := 0; num_compromised := 0;
  root_shell := 0; su_attempted := 0; num_root := 0; num_file_creations := 0;
  num_shells := 0; num_access_files := 0; num_outbound_cmds := 0;
  is_host_login := 0; is_guest_login := 0; count := count; srv_count := count;
  serror_rate := serror_rate; srv_serror_rate := serror_rate; rerror_rate := zero;
  srv_rerror_rate := zero; same_srv_rate := zero; diff_srv_rate := zero;
  srv_diff_host_rate := zero; dst_host_count := 0; dst_host_srv_count := 0;
  dst_host_same_srv_rate := zero; dst_host_diff_srv_rate := zero;
  dst_host_same_src_port_rate := zero; dst_host_srv_diff_host_rate := zero;
  dst_host_serror_rate := serror_rate; dst_host_srv_serror_rate := serror_rate;
  dst_host_rerror_rate := zero; dst_host_srv_rerror_rate := zero
|}.

(** An all-zero, benign-looking TCP record. *)
Definition benign : NetworkTrafficFeatures :=
  connection "tcp" "http" "SF" 0 0 zero.

(** The same numbers under other categorical fields. *)
Definition benign_udp : NetworkTrafficFeatures :=
  connection "udp" "domain_u" "S0" 0 0 zero.

(** A flood-like record: many connections, all with SYN errors. *)
Definition flood : NetworkTrafficFeatures :=
  connection "tcp" "private" "S0" 0 511 one.

(** A valid record whose byte count no 32-bit float can hold. *)
Definition oversized : NetworkTrafficFeatures :=
  connection "tcp" "ftp_data" "SF" (10 ^ 39) 1 zero.

(** A classifier that calls a connection malicious when its [count]
    (entry 19 of the vector) is above 100, and that, as a forest working
    on 32-bit floats does, raises on a [src_bytes] (entry 1) too large. *)
Definition threshold_model : Model.t := {|
  Model.predict x :=
    match data x !! 1%nat, data x !! 19%nat with
    | Some (NInt b), Some (NInt n) =>
        if 10 ^ 39 <=? b
        then Raise (Exception "Input X contains infinity or a value too large")
        else Ok [if 100 <? n then 1 else 0]
    | _, _ => Raise (Exception "X has the wrong number of features")
    end;
  Model.predict_proba _ := Ok [[zero; one]]
|}.

Definition env : Env := {|
  getenv _ := None;
  path_exists path := bool_decide (path = "/app/model/rf_model.pkl");
  joblib_load _ := Ok (Some threshold_model);
  time_time n := float_of_int (Z.of_nat n);
  utcnow n := {| timestamp := float_of_int (Z.of_nat n) |}
|}.

(** No artifact on disk. *)
Definition env_missing : Env := {|
  getenv _ := None;
  path_exists _ := false;
  joblib_load _ := Raise (Exception "unreachable");
  time_time n := float_of_int (Z.of_nat n);
  utcnow n := {| timestamp := float_of_int (Z.of_nat n) |}
|}.

(** An artifact that does not unpickle. *)
Definition env_corrupt : Env := {|
  getenv _ := None;
  path_exists _ := true;
  joblib_load _ := Raise (Exception "invalid load key");
  time_time n := float_of_int (Z.of_nat n);
  utcnow n := {| timestamp := float_of_int (Z.of_nat n) |}
|}.

(** The state after a successful start-up. *)
Definition loaded : State :=
  {| model := Some threshold_model;
     model_loaded_at := Some {| timestamp := zero |};
     clock := 1%nat;
     trace := [] |}.

(** Strict conversions: only values of the annotated type, and integers
    where a float is asked for. *)
Definition to_float (j : json) : option float :=
  match j with
  | JFloat x => Some x
  | JInt n => Some (float_of_int n)
  | _ => None
  end.
Definition to_int (j : json) : option Z :=
  match j with JInt n => Some n | _ => None end.
Definition to_str (j : json) : option string :=
  match j with JStr s => Some s | _ => None end.

(** The body for [benign], as decoded. *)
Definition benign_body : gmap string json :=
  list_to_map (
    ("protocol_type", JStr "tcp") :: ("service", JStr "http") :: ("flag", JStr "SF")
    :: map (λ name, (name, JInt 0))
         (filter (λ name, name ∉ categorical) FEATURE_NAMES)).

(** A body with three things wrong: [land] out of range, [serror_rate]
    above 1, and [flag] missing. *)
Definition bad_body : gmap string json :=
  <["land" := JInt 2]> (<["serror_rate" := JFloat (float_of_int 3)]>
    (delete "flag" benign_body)).

End Sample.

(** ** The root endpoint *)

Module RootResponse.
Record t : Type := {
  service : string;
  version : string;
  model_version : string;
  model_loaded : bool;
  endpoints : list (string * string)
}.
End RootResponse.

(** [GET /]. *)
Definition root : M RootResponse.t :=
  m ← gets model;
  mret {| RootResponse.service := "Threat Detector ML Service";
          RootResponse.version := "1.0.0";
          RootResponse.model_version := model_version;
          RootResponse.model_loaded := if m is Some _ then true else false;
          RootResponse.endpoints :=
            [("health", "/health"); ("predict", "/predict");
             ("batch_predict", "/predict/batch"); ("docs", "/docs")] |}.

(** ** Notions used to state what the handlers leave behind *)

#[global] Instance annotation_eq_dec : EqDecision annotation.
Proof. solve_decision. Defined.


(** The state [s] after [n] more clock reads and the events [evs]. *)
Definition after (s : State) (n : nat) (evs : list event) : State :=
  {| model := model s; model_loaded_at := model_loaded_at s;
     clock := (n + clock s)%nat; trace := trace s ++ evs |}.

(** The calls one inference on [features] makes, up to and including the
    first that raises. *)
Definition inference_events (m : Model.t) (features : NetworkTrafficFeatures)
    : list event :=
  Encode features ::
  match preprocess_features features with
  | Raise _ => []
  | Ok x =>
      Predict x ::
      match Model.predict m x with
      | Raise _ => []
      | Ok ys =>
          match index0 ys with
          | Raise _ => []
          | Ok _ => [PredictProba x]
          end
      end
  end.

(** The calls of the loop of [predict_batch], which stops at the first
    item whose inference raises, and the number of items answered before. *)
Fixpoint batch_events (m : Model.t) (items : list NetworkTrafficFeatures)
    : list event :=
  match items with
  | [] => []
  | features :: rest =>
      inference_events m features ++
      match classify m features with
      | Ok _ => batch_events m rest
      | Raise _ => []
      end
  end.

Fixpoint answered (m : Model.t) (items : list NetworkTrafficFeatures) : nat :=
  match items with
  | [] => 0%nat
  | features :: rest =>
      match classify m features with
      | Ok _ => S (answered m rest)
      | Raise _ => 0%nat
      end
  end.

(** The three calls of an inference that goes through. *)
Definition calls (features : NetworkTrafficFeatures) : list event :=
  match preprocess_features features with
  | Ok x => [Encode features; Predict x; PredictProba x]
  | Raise _ => [Encode features]
  end.

(** The model answers on [features]: every step of the inference returns. *)
Definition answers (m : Model.t) (features : NetworkTrafficFeatures) : Prop :=
  ∃ c conf, classify m features = Ok (c, conf).

(** The request body a record serialises to: [features.dict()] as JSON. *)
Definition to_json (v : pyval) : json :=
  match v with
  | PNum (NInt n) => JInt n
  | PNum (NFloat x) => JFloat x
  | PStr s => JStr s
  end.

Definition body_of (features : NetworkTrafficFeatures) : gmap string json :=
  list_to_map (prod_map id to_json <$> dict features).

(** ** Further sample worlds *)

Module Sample2.

(** A classifier that calls everything normal. *)
Definition quiet_model : Model.t := {|
  Model.predict _ := Ok [0];
  Model.predict_proba _ := Ok [[Sample.one; Sample.zero]]
|}.

(** A deployment that points [MODEL_PATH] at its own artifact. *)
Definition env_custom : Env := {|
  getenv name := if bool_decide (name = "MODEL_PATH") then Some "/srv/rf.pkl" else None;
  path_exists path := bool_decide (path = "/srv/rf.pkl");
  joblib_load _ := Ok (Some quiet_model);
  time_time n := float_of_int (Z.of_nat n);
  utcnow n := {| timestamp := float_of_int (Z.of_nat n) |}
|}.

(** An artifact that unpickles to [None]. *)
Definition env_none : Env := {|
  getenv _ := None;
  path_exists _ := true;
  joblib_load _ := Ok None;
  time_time n := float_of_int (Z.of_nat n);
  utcnow n := {| timestamp := float_of_int (Z.of_nat n) |}
|}.

End Sample2.

(** ** Tactics for running the handlers *)

#[local] Arguments preprocess_features : simpl never.

Ltac unfold_ops :=
  unfold try_except, call_preprocess_features, model_predict,
    model_predict_proba, new_PredictionResponse, time_time_, datetime_utcnow,
    tick, asks, logger_error, emit, raise, lift, gets, mbind, M_bind, mret, M_ret.

Ltac finish_run :=
  eexists; split; [reflexivity | split; reflexivity].

(** Walk through the five steps of one inference, closing the branch of
    each step that raises with [finish_run]. *)
Ltac run_classify m features :=
  unfold classify;
  destruct (preprocess_features features) as [?x|?e] eqn:?Hx; cbn;
    [|try finish_run];
  match goal with x : ndarray |- _ =>
  destruct (Model.predict m x) as [?ys|?e] eqn:?Hys; cbn; [|try finish_run];
  match goal with ys : list Z |- _ =>
  destruct (index0 ys) as [?c|?e] eqn:?Hc; cbn; [|try finish_run] end;
  destruct (Model.predict_proba m x) as [?p|?e] eqn:?Hp; cbn; [|try finish_run];
  match goal with p : list (list float) |- _ =>
  destruct (np_max p) as [?conf|?e] eqn:?Hconf; cbn; [|try finish_run] end
  end.

(** Close a goal that equates two explicit outcomes and states. *)
Ltac solve_state :=
  unfold after; cbn; rewrite <- ?app_assoc; reflexivity.

(** Unfold [load_model] down to the state it builds. *)
Ltac unfold_load :=
  unfold load_succeeds, load_model, os_getenv, os_path_exists, joblib_load_,
    set_model, set_model_loaded_at, logger_info, logger_warning, logger_error,
    datetime_utcnow, tick, try_except, emit, asks, lift, gets,
    mbind, M_bind, mret, M_ret.

(** Split the validity of a record into one fact per declared field. *)
Ltac split_valid H :=
  apply Is_true_true, forallb_True in H;
  unfold model_fields in H;
  repeat match type of H with
  | Forall _ (_ :: _) => let Hf := fresh "Hf" in apply Forall_cons in H as [Hf H]
  end;
  clear H;
  repeat match goal with
  | Hf : context [getattr ?r ?n] |- _ =>
      let v := eval vm_compute in (getattr r n) in
      change (getattr r n) with v in Hf; cbn in Hf
  end.

Ltac use_bounds :=
  repeat match goal with
  | Hf : context [?a <=? ?b] |- _ =>
      destruct (Z.leb_spec a b); cbn in Hf; [|contradiction]
  | Hf : context [fle ?a ?b] |- _ =>
      let E := fresh "E" in destruct (fle a b) eqn:E; cbn in Hf; [|contradiction]
  end.

(** Replace every lookup in the body of a record by the value found. *)
Ltac read_body :=
  repeat match goal with
  | |- context [@lookup _ _ _ _ ?n (body_of ?r)] =>
      let v := eval vm_compute in (body_of r !! n) in
      change (body_of r !! n) with v
  end.

(** * Properties *)

(** ** The encoder *)

(** The names of the encoded fields: [FEATURE_NAMES] without the
    categorical ones. *)
Lemma encoded_names :
  filter (λ name, name ∉ categorical) FEATURE_NAMES =
  [ "duration"; "src_bytes"; "dst_bytes"; "land"; "wrong_fragment"; "urgent";
    "hot"; "num_failed_logins"; "logged_in"; "num_compromised"; "root_shell";
    "su_attempted"; "num_root"; "num_file_creations"; "num_shells";
    "num_access_files"; "num_outbound_cmds"; "is_host_login"; "is_guest_login";
    "count"; "srv_count"; "serror_rate"; "srv_serror_rate"; "rerror_rate";
    "srv_rerror_rate"; "same_srv_rate"; "diff_srv_rate"; "srv_diff_host_rate";
    "dst_host_count"; "dst_host_srv_count"; "dst_host_same_srv_rate";
    "dst_host_diff_srv_rate"; "dst_host_same_src_port_rate";
    "dst_host_srv_diff_host_rate"; "dst_host_serror_rate";
    "dst_host_srv_serror_rate"; "dst_host_rerror_rate";
    "dst_host_srv_rerror_rate" ].
Proof. vm_compute. reflexivity. Qed.

(** The fields of a record are exactly the names of [FEATURE_NAMES], in
    that order. *)
Lemma dict_keys features : (dict features).*1 = FEATURE_NAMES.
Proof. reflexivity. Qed.

(** C1.  For every record (valid or not), [preprocess_features] returns a
    [1 x 38] array whose 38 entries are, position by position, the values
    of the fields named by [FEATURE_NAMES] with [protocol_type], [service]
    and [flag] left out; every entry is a number. *)
Theorem preprocess_features_vector (features : NetworkTrafficFeatures) :
  ∃ x, preprocess_features features = Ok x
     ∧ shape x = [1; 38]
     ∧ length (data x) = 38%nat
     ∧ Forall2 (λ name v, getattr features name = Some (PNum v))
         (filter (λ name, name ∉ categorical) FEATURE_NAMES) (data x).
Proof.
  eexists. split; [vm_compute; reflexivity|].
  split; [reflexivity|]. split; [reflexivity|].
  rewrite encoded_names. cbn [data].
  repeat (constructor; [vm_compute; reflexivity|]). constructor.
Qed.

(** C9.  [preprocess_features] has no failure path, and what a handler
    gets from it depends on the record alone: not on the environment, the
    loaded model, the clock or anything done before. *)
Theorem preprocess_features_deterministic_total (features : NetworkTrafficFeatures) :
  ∃ x, preprocess_features features = Ok x
     ∧ ∀ env1 s1 env2 s2,
         (call_preprocess_features features env1 s1).1 = Ok x
       ∧ (call_preprocess_features features env2 s2).1 = Ok x.
Proof.
  eexists. split; [vm_compute; reflexivity|].
  intros env1 s1 env2 s2. split; vm_compute; reflexivity.
Qed.

(** ** Running the handlers *)

(** [predict] with a model loaded: the answer is [classify]'s, stamped
    with the time; an exception becomes a 500. The globals are untouched. *)
Lemma predict_run env s m features :
  model s = Some m →
  ∃ s', predict features env s =
          (match classify m features with
           | Ok (c, conf) => Ok (response c conf (utcnow env (clock s)))
           | Raise e => Raise (HTTPException 500 ("Prediction failed: " +:+ str e))
           end, s')
      ∧ model s' = Some m ∧ model_loaded_at s' = model_loaded_at s.
Proof.
  destruct s as [mo la ck tr]. cbn. intros ->.
  unfold predict. unfold_ops. cbn.
  run_classify m features. finish_run.
Qed.

(** The loop with a model loaded: it returns what it had plus the
    [responses] of the items, or raises what the first failing item raises. *)
Lemma batch_loop_run items : ∀ acc env s m,
  model s = Some m →
  ∃ s', batch_loop items acc env s =
          (match responses m env (clock s) items with
           | Ok rs => Ok (acc ++ rs)%list
           | Raise e => Raise e
           end, s')
      ∧ model s' = Some m ∧ model_loaded_at s' = model_loaded_at s.
Proof.
  induction items as [|features rest IH]; intros acc env s m Hm.
  - cbn. rewrite app_nil_r. eauto.
  - destruct s as [mo la ck tr]. cbn in Hm. subst mo.
    cbn [batch_loop responses]. unfold_ops. cbn.
    run_classify m features.
    match goal with |- context [batch_loop rest ?acc' env ?s1] =>
      destruct (IH acc' env s1 m eq_refl) as (s' & -> & Hm' & Hat) end.
    cbn [clock]. destruct (responses m env (S ck) rest) as [rs|e].
    + rewrite <- app_assoc. cbn. eexists; split; [reflexivity|]. split; assumption.
    + eexists; split; [reflexivity|]. split; assumption.
Qed.

(** [predict_batch] with a model loaded. *)
Lemma predict_batch_run env s m request :
  model s = Some m →
  ∃ s', model s' = Some m ∧ model_loaded_at s' = model_loaded_at s ∧
    match responses m env (S (clock s)) (BatchPredictionRequest.features request) with
    | Ok rs =>
        ∃ t, predict_batch request env s =
               (Ok {| BatchPredictionResponse.predictions := rs;
                      BatchPredictionResponse.total_processed := Z.of_nat (length rs);
                      BatchPredictionResponse.processing_time_ms := t |}, s')
    | Raise e =>
        predict_batch request env s =
          (Raise (HTTPException 500 ("Batch prediction failed: " +:+ str e)), s')
    end.
Proof.
  destruct s as [mo la ck tr]. cbn. intros ->.
  unfold predict_batch. unfold_ops. cbn.
  match goal with |- context [batch_loop ?items ?acc env ?s1] =>
    destruct (batch_loop_run items acc env s1 m eq_refl) as (s' & Hrun & Hm' & Hat);
    rewrite Hrun end.
  cbn [clock] in *.
  destruct (responses m env (S ck) (BatchPredictionRequest.features request))
    as [rs|e]; cbn.
  - eexists. split; [|split]; cycle 2.
    + eexists. reflexivity.
    + exact Hm'.
    + exact Hat.
  - eexists. split; [|split]; cycle 2.
    + reflexivity.
    + exact Hm'.
    + exact Hat.
Qed.

(** ** What [classify] and [responses] amount to *)

Lemma classify_ok m features c conf :
  classify m features = Ok (c, conf) ↔
  ∃ x ys p, preprocess_features features = Ok x
          ∧ Model.predict m x = Ok (c :: ys)
          ∧ Model.predict_proba m x = Ok p
          ∧ np_max p = Ok conf.
Proof.
  unfold classify. split.
  - destruct (preprocess_features features) as [x|] eqn:Hx; [|discriminate].
    destruct (Model.predict m x) as [[|c' ys]|] eqn:Hys; cbn; try discriminate.
    destruct (Model.predict_proba m x) as [p|] eqn:Hp; [|discriminate].
    destruct (np_max p) as [conf'|] eqn:Hmax; [|discriminate].
    intros [= -> ->]. exists x, ys, p. auto.
  - intros (x & ys & p & -> & -> & -> & Hmax). cbn. now rewrite Hmax.
Qed.

Lemma classify_raises m features :
  raises_at_model m features → ∃ e, classify m features = Raise e.
Proof.
  intros (x & Hx & [[e He]|[e He]]); unfold classify; rewrite Hx.
  - rewrite He. eauto.
  - destruct (Model.predict m x) as [ys|]; [|eauto].
    destruct (index0 ys); [|eauto]. rewrite He. eauto.
Qed.

Lemma response_prediction_for m features c conf now :
  classify m features = Ok (c, conf) →
  prediction_for m features (response c conf now).
Proof.
  intros (x & ys & p & Hx & Hys & Hp & Hmax)%classify_ok.
  exists x, c, ys, p. cbn. tauto.
Qed.

Lemma response_mapped c conf now : mapped c (response c conf now).
Proof. split; intros ->; cbn; split; reflexivity. Qed.

Lemma responses_length m env items : ∀ n rs,
  responses m env n items = Ok rs → length rs = length items.
Proof.
  induction items as [|f rest IH]; intros n rs; cbn.
  - now intros [= <-].
  - destruct (classify m f) as [[c conf]|]; [|discriminate].
    destruct (responses m env (S n) rest) as [rs'|] eqn:Hrest; [|discriminate].
    intros [= <-]. cbn. f_equal. eauto.
Qed.

(** Position by position, the responses are those of the items. *)
Lemma responses_Forall2 m env items : ∀ n rs,
  responses m env n items = Ok rs →
  Forall2 (λ f r, ∃ c conf now, classify m f = Ok (c, conf) ∧ r = response c conf now)
    items rs.
Proof.
  induction items as [|f rest IH]; intros n rs; cbn.
  - intros [= <-]. constructor.
  - destruct (classify m f) as [[c conf]|] eqn:Hc; [|discriminate].
    destruct (responses m env (S n) rest) as [rs'|] eqn:Hrest; [|discriminate].
    intros [= <-]. constructor; eauto.
Qed.

Lemma responses_raise m env items : ∀ n,
  Exists (λ f, ∃ e, classify m f = Raise e) items →
  ∃ e, responses m env n items = Raise e.
Proof.
  induction items as [|f rest IH]; intros n Hex; cbn.
  - inversion Hex.
  - destruct (classify m f) as [[c conf]|e0] eqn:Hc; [|eauto].
    apply Exists_cons in Hex as [[e He]|Hex]; [congruence|].
    destruct (IH (S n) Hex) as [e ->]. eauto.
Qed.

Lemma responses_ok m env items : ∀ n,
  Forall (λ f, ∃ c conf, classify m f = Ok (c, conf)) items →
  ∃ rs, responses m env n items = Ok rs.
Proof.
  induction items as [|f rest IH]; intros n Hall; cbn; [eauto|].
  apply Forall_cons in Hall as [(c & conf & ->) Hall].
  destruct (IH (S n) Hall) as [rs ->]. eauto.
Qed.

(** ** Prediction *)

(** C2.  With a model loaded, a record on which the model answers class
    [c] gets from [predict] a response that carries the confidence and is
    [mapped] to [c]: class 1 is "malicious" with threat type "unknown",
    class 0 is "normal" with no threat type.  A batch on whose items the
    model answers succeeds, and each of its responses is mapped in the same
    way to the class of its item. *)
Theorem class_mapping env s m (Hm : model s = Some m) :
  (∀ features x c ys p conf,
     preprocess_features features = Ok x →
     Model.predict m x = Ok (c :: ys) →
     Model.predict_proba m x = Ok p →
     np_max p = Ok conf →
     ∃ r s', predict features env s = (Ok r, s')
           ∧ PredictionResponse.confidence r = conf
           ∧ mapped c r)
  ∧ (∀ request,
       Forall (λ f, ∃ r, prediction_for m f r)
         (BatchPredictionRequest.features request) →
       ∃ resp s', predict_batch request env s = (Ok resp, s')
         ∧ Forall2 (λ f r, ∃ x c ys, preprocess_features f = Ok x
                                   ∧ Model.predict m x = Ok (c :: ys)
                                   ∧ mapped c r)
             (BatchPredictionRequest.features request)
             (BatchPredictionResponse.predictions resp)).
Proof.
  split.
  - intros features x c ys p conf Hx Hys Hp Hmax.
    destruct (predict_run env s m features Hm) as (s' & Hrun & _).
    assert (Hc : classify m features = Ok (c, conf))
      by (apply classify_ok; eauto 10).
    rewrite Hc in Hrun. eexists _, s'. split; [exact Hrun|].
    split; [reflexivity|apply response_mapped].
  - intros request Hall.
    destruct (predict_batch_run env s m request Hm) as (s' & _ & _ & Hrun).
    destruct (responses_ok m env (BatchPredictionRequest.features request)
                (S (clock s))) as [rs Hrs].
    { eapply Forall_impl; [exact Hall|]. cbn.
      intros f (r & x & c & ys & p & Hx & Hys & Hp & Hmax & _).
      exists c, (PredictionResponse.confidence r). apply classify_ok. eauto 10. }
    rewrite Hrs in Hrun. destruct Hrun as [t Hrun].
    eexists _, s'. split; [exact Hrun|]. cbn.
    eapply Forall2_impl; [exact (responses_Forall2 _ _ _ _ _ Hrs)|]. cbn.
    intros f r (c & conf & now & Hc & ->).
    apply classify_ok in Hc as (x & ys & p & Hx & Hys & _).
    exists x, c, ys. split; [assumption|]. split; [assumption|].
    apply response_mapped.
Qed.

Lemma class_mapping_witness :
  model Sample.loaded = Some Sample.threshold_model
  ∧ (∃ r s', predict Sample.flood Sample.env Sample.loaded = (Ok r, s')
           ∧ PredictionResponse.confidence r = Sample.one
           ∧ mapped 1 r).
Proof.
  split; [reflexivity|].
  eapply (proj1 (class_mapping Sample.env Sample.loaded Sample.threshold_model eq_refl)
            Sample.flood _ 1 [] [[Sample.zero; Sample.one]] Sample.one);
    vm_compute; reflexivity.
Defined.

(** C3.  With no model loaded, [predict] and [predict_batch] raise the 503
    [HTTPException] at once: the state they leave is the state they found,
    so the trace has gained no [Encode], [Predict] or [PredictProba] event
    and the clock has not been read.  The failure is the exception the
    framework answers with, not another one. *)
Theorem not_ready_rejected env s (Hm : model s = None) :
  (∀ features,
     predict features env s =
       (Raise (HTTPException 503
                 "Model not loaded. Please train and load the model first."), s))
  ∧ (∀ request,
       predict_batch request env s =
         (Raise (HTTPException 503
                   "Model not loaded. Please train and load the model first."), s)).
Proof.
  split; intros x.
  - unfold predict, gets, raise, mbind, M_bind. now rewrite Hm.
  - unfold predict_batch, gets, raise, mbind, M_bind. now rewrite Hm.
Qed.

Lemma not_ready_rejected_witness :
  model initial = None
  ∧ predict Sample.flood Sample.env initial = (Raise not_loaded, initial)
  ∧ predict_batch
      {| BatchPredictionRequest.features := [Sample.flood; Sample.benign] |}
      Sample.env initial = (Raise not_loaded, initial).
Proof.
  split; [reflexivity|].
  split; apply (not_ready_rejected Sample.env initial eq_refl).
Defined.

(** C4.  With a model loaded, a batch in which the model raises on some
    item fails as a whole: [predict_batch] raises a 500 [HTTPException]
    whose detail names an exception.  Its outcome is that exception and
    nothing else, so no response, also of the items before the failing one,
    reaches the caller; the globals are as before. *)
Theorem batch_all_or_nothing env s m request
    (Hm : model s = Some m)
    (Hfail : Exists (raises_at_model m) (BatchPredictionRequest.features request)) :
  ∃ e s', predict_batch request env s =
            (Raise (HTTPException 500 ("Batch prediction failed: " +:+ str e)), s')
        ∧ model s' = model s
        ∧ model_loaded_at s' = model_loaded_at s.
Proof.
  destruct (predict_batch_run env s m request Hm) as (s' & Hm' & Hat & Hrun).
  destruct (responses_raise m env (BatchPredictionRequest.features request)
              (S (clock s))) as [e He].
  { eapply Exists_impl; [exact Hfail|]. apply classify_raises. }
  rewrite He in Hrun. exists e, s'. rewrite Hm. auto.
Qed.

Lemma batch_all_or_nothing_witness :
  model Sample.loaded = Some Sample.threshold_model
  ∧ Exists (raises_at_model Sample.threshold_model)
      [Sample.flood; Sample.oversized; Sample.benign]
  ∧ ∃ e s', predict_batch
              {| BatchPredictionRequest.features :=
                   [Sample.flood; Sample.oversized; Sample.benign] |}
              Sample.env Sample.loaded =
              (Raise (HTTPException 500 ("Batch prediction failed: " +:+ str e)), s')
          ∧ model s' = model Sample.loaded
          ∧ model_loaded_at s' = model_loaded_at Sample.loaded.
Proof.
  assert (H : Exists (raises_at_model Sample.threshold_model)
                [Sample.flood; Sample.oversized; Sample.benign]).
  { apply Exists_cons_tl, Exists_cons_hd.
    eexists. split; [vm_compute; reflexivity|].
    left. eexists. vm_compute. reflexivity. }
  split; [reflexivity|]. split; [exact H|].
  exact (batch_all_or_nothing Sample.env Sample.loaded Sample.threshold_model
           {| BatchPredictionRequest.features :=
                [Sample.flood; Sample.oversized; Sample.benign] |} eq_refl H).
Defined.

(** C5.  With a model loaded, a batch that succeeds returns as many
    predictions as it was given records, reports that number as
    [total_processed], and its [i]-th prediction is the prediction of the
    model for the [i]-th record.  On an empty batch it does succeed, with no
    prediction and [total_processed = 0]. *)
Theorem batch_order env s m request (Hm : model s = Some m) :
  (∀ resp s',
     predict_batch request env s = (Ok resp, s') →
     length (BatchPredictionResponse.predictions resp) =
       length (BatchPredictionRequest.features request)
     ∧ BatchPredictionResponse.total_processed resp =
         Z.of_nat (length (BatchPredictionRequest.features request))
     ∧ ∀ (i : nat) f,
         BatchPredictionRequest.features request !! i = Some f →
         ∃ r, BatchPredictionResponse.predictions resp !! i = Some r
            ∧ prediction_for m f r)
  ∧ (BatchPredictionRequest.features request = [] →
     ∃ t s', predict_batch request env s =
               (Ok {| BatchPredictionResponse.predictions := [];
                      BatchPredictionResponse.total_processed := 0;
                      BatchPredictionResponse.processing_time_ms := t |}, s')).
Proof.
  destruct (predict_batch_run env s m request Hm) as (s1 & _ & _ & Hrun).
  split.
  - intros resp s' Hok.
    destruct (responses m env (S (clock s))
                (BatchPredictionRequest.features request)) as [rs|e] eqn:Hrs.
    2: { rewrite Hrun in Hok. discriminate. }
    destruct Hrun as [t Hrun]. rewrite Hrun in Hok.
    injection Hok as <- <-. cbn.
    pose proof (responses_length _ _ _ _ _ Hrs) as Hlen.
    split; [exact Hlen|]. split; [now rewrite Hlen|].
    intros i f Hi.
    pose proof (responses_Forall2 _ _ _ _ _ Hrs) as Hall.
    destruct (Forall2_lookup_l _ _ _ _ _ Hall Hi)
      as (r & Hr & c & conf & now & Hc & ->).
    exists (response c conf now). split; [exact Hr|].
    now apply response_prediction_for.
  - intros Hnil. rewrite Hnil in Hrun. cbn in Hrun.
    destruct Hrun as [t Hrun]. eauto.
Qed.

Lemma batch_order_witness :
  model Sample.loaded = Some Sample.threshold_model
  ∧ ∃ resp s',
      predict_batch
        {| BatchPredictionRequest.features :=
             [Sample.flood; Sample.benign; Sample.flood] |}
        Sample.env Sample.loaded = (Ok resp, s')
      ∧ length (BatchPredictionResponse.predictions resp) = 3%nat
      ∧ BatchPredictionResponse.total_processed resp = 3
      ∧ ∃ r, BatchPredictionResponse.predictions resp !! 1%nat = Some r
           ∧ prediction_for Sample.threshold_model Sample.benign r.
Proof.
  split; [reflexivity|].
  destruct (predict_batch
              {| BatchPredictionRequest.features :=
                   [Sample.flood; Sample.benign; Sample.flood] |}
              Sample.env Sample.loaded) as [[resp|e] s'] eqn:Hrun.
  2: { vm_compute in Hrun. discriminate Hrun. }
  exists resp, s'. split; [reflexivity|].
  destruct (proj1 (batch_order Sample.env Sample.loaded Sample.threshold_model
                     {| BatchPredictionRequest.features :=
                          [Sample.flood; Sample.benign; Sample.flood] |} eq_refl)
              resp s' Hrun) as (Hlen & Htot & Hnth).
  split; [exact Hlen|]. split; [exact Htot|].
  exact (Hnth 1%nat Sample.benign eq_refl).
Defined.

(** ** The categorical fields do not reach the model *)

Lemma agree_preprocess f1 f2 :
  agree_off_categorical f1 f2 → preprocess_features f1 = preprocess_features f2.
Proof.
  unfold agree_off_categorical. destruct f1, f2. intros H.
  vm_compute in H. simplify_eq. reflexivity.
Qed.

(** C10.  Two records that agree on every field but [protocol_type],
    [service] and [flag] are encoded to the same vector, and, whatever the
    environment and the rest of the state, [predict] against the same loaded
    model answers both alike: the same label, confidence and threat type,
    or the same failure. *)
Theorem categorical_noninterference env1 s1 env2 s2 m f1 f2
    (Hm1 : model s1 = Some m) (Hm2 : model s2 = Some m)
    (Hagree : agree_off_categorical f1 f2) :
  preprocess_features f1 = preprocess_features f2
  ∧ same_answer (predict f1 env1 s1).1 (predict f2 env2 s2).1.
Proof.
  pose proof (agree_preprocess f1 f2 Hagree) as Heq.
  split; [exact Heq|].
  destruct (predict_run env1 s1 m f1 Hm1) as (s1' & -> & _).
  destruct (predict_run env2 s2 m f2 Hm2) as (s2' & -> & _).
  assert (Hc : classify m f1 = classify m f2) by (unfold classify; now rewrite Heq).
  rewrite Hc. cbn.
  destruct (classify m f2) as [[c conf]|e]; cbn; auto.
Qed.

Lemma categorical_noninterference_witness :
  model Sample.loaded = Some Sample.threshold_model
  ∧ model Sample.loaded = Some Sample.threshold_model
  ∧ agree_off_categorical Sample.benign Sample.benign_udp
  ∧ preprocess_features Sample.benign = preprocess_features Sample.benign_udp
  ∧ same_answer (predict Sample.benign Sample.env Sample.loaded).1
      (predict Sample.benign_udp Sample.env_corrupt Sample.loaded).1.
Proof.
  split; [reflexivity|]. split; [reflexivity|].
  split; [vm_compute; reflexivity|].
  apply (categorical_noninterference Sample.env Sample.loaded Sample.env_corrupt
           Sample.loaded Sample.threshold_model Sample.benign Sample.benign_udp
           eq_refl eq_refl).
  vm_compute. reflexivity.
Defined.

(** ** Health *)

(** C8.  In every state [health_check] returns a response, and its status
    is "healthy" exactly when a model is loaded and "degraded" otherwise. *)
Theorem health_check_reports_readiness env s :
  ∃ resp s', health_check env s = (Ok resp, s')
    ∧ HealthResponse.status resp = (if is_ready s then "healthy" else "degraded")
    ∧ HealthResponse.model_loaded resp = is_ready s
    ∧ (HealthResponse.status resp = "healthy" ↔ is_ready s = true)
    ∧ (HealthResponse.status resp = "degraded" ↔ is_ready s = false)
    ∧ model s' = model s
    ∧ model_loaded_at s' = model_loaded_at s.
Proof.
  unfold health_check, time_time_, tick, asks, gets, mbind, M_bind, mret, M_ret.
  destruct s as [[m|] [d|] ck tr]; cbn; eexists _, _;
    (split; [reflexivity|]); cbn; repeat split; intros; congruence.
Qed.

(** ** The model handle *)

(** [load_model] in full: what it returns and the state it leaves, by
    what it finds at the configured path. *)
Lemma load_model_full env s :
  let model_path := default "/app/model/rf_model.pkl" (getenv env "MODEL_PATH") in
  load_model env s =
    if path_exists env model_path then
      match joblib_load env model_path with
      | Ok m =>
          (Ok true,
           {| model := m;
              model_loaded_at := Some (utcnow env (clock s));
              clock := S (clock s);
              trace := trace s ++
                [JoblibLoad model_path;
                 LogInfo ("Model loaded successfully from " +:+ model_path)] |})
      | Raise e =>
          (Ok false,
           after s 0 [JoblibLoad model_path;
                      LogError ("Error loading model: " +:+ str e)])
      end
    else
      (Ok false,
       after s 0 [LogWarning ("Model file not found at " +:+ model_path);
                  LogInfo "Model will need to be trained first"]).
Proof.
  cbn. unfold_load. unfold after. cbn.
  destruct (getenv env "MODEL_PATH") as [path|]; cbn.
  - destruct (path_exists env path); cbn; [|now rewrite <- !app_assoc].
    destruct (joblib_load env path) as [m|e]; cbn; now rewrite <- !app_assoc.
  - destruct (path_exists env _); cbn; [|now rewrite <- !app_assoc].
    destruct (joblib_load env _) as [m|e]; cbn; now rewrite <- !app_assoc.
Qed.

Lemma load_succeeds_path env :
  load_succeeds env =
  path_exists env (default "/app/model/rf_model.pkl" (getenv env "MODEL_PATH"))
  && (if joblib_load env
           (default "/app/model/rf_model.pkl" (getenv env "MODEL_PATH"))
      is Ok _ then true else false).
Proof. unfold load_succeeds. now destruct (getenv env "MODEL_PATH"). Qed.

Lemma load_model_run env s :
  (load_model env s).1 = Ok (load_succeeds env)
  ∧ (if load_succeeds env then True
     else model (load_model env s).2 = model s
        ∧ model_loaded_at (load_model env s).2 = model_loaded_at s).
Proof.
  rewrite load_succeeds_path, (load_model_full env s). cbn zeta.
  destruct (path_exists env _); cbn; [|auto].
  destruct (joblib_load env _); cbn; auto.
Qed.

(** A load after which the service is ready whenever the load says it
    succeeded: the artifact, if it unpickles, is not [None]. *)
Lemma load_model_ready env s :
  joblib_load env (model_path env) ≠ Ok None →
  is_ready (load_model env s).2 = load_succeeds env || is_ready s.
Proof.
  intros Hnone. rewrite load_succeeds_path, (load_model_full env s). cbn zeta.
  unfold model_path in Hnone.
  destruct (path_exists env _); cbn; [|reflexivity].
  destruct (joblib_load env _) as [[m|]|e]; cbn; [reflexivity|congruence|reflexivity].
Qed.

(** C6, as amended.  At module load no model is ready.  A load that finds
    the artifact and unpickles it to an object other than [None] returns
    [True], installs that object and leaves the service ready.  A load that
    fails, for a missing file or for an artifact that does not unpickle,
    returns [False] and leaves the model, its load time and so the
    readiness as they were.  A load whose artifact unpickles to [None]
    returns [True] as well, and nothing is said here of the readiness after
    it.  So after any history of load attempts none of which unpickled
    [None], the service is ready exactly when one of them succeeded. *)
Theorem load_model_readiness :
  is_ready initial = false
  ∧ (∀ env s,
       if path_exists env (model_path env) then
         match joblib_load env (model_path env) with
         | Ok (Some m) =>
             (load_model env s).1 = Ok true
             ∧ model (load_model env s).2 = Some m
             ∧ is_ready (load_model env s).2 = true
         | Ok None => (load_model env s).1 = Ok true
         | Raise _ =>
             (load_model env s).1 = Ok false
             ∧ model (load_model env s).2 = model s
             ∧ model_loaded_at (load_model env s).2 = model_loaded_at s
             ∧ is_ready (load_model env s).2 = is_ready s
         end
       else
         (load_model env s).1 = Ok false
         ∧ model (load_model env s).2 = model s
         ∧ model_loaded_at (load_model env s).2 = model_loaded_at s
         ∧ is_ready (load_model env s).2 = is_ready s)
  ∧ (∀ envs,
       Forall (λ env, joblib_load env (model_path env) ≠ Ok None) envs →
       is_ready (load_attempts envs initial) = existsb load_succeeds envs).
Proof.
  split; [reflexivity|]. split.
  - intros env s. rewrite (load_model_full env s). unfold model_path. cbn zeta.
    destruct (path_exists env _); [|cbn; auto].
    destruct (joblib_load env _) as [[m|]|e]; cbn; auto.
  - intros envs Hall.
    enough (H : ∀ s, is_ready (load_attempts envs s)
                     = existsb load_succeeds envs || is_ready s)
      by (rewrite H; cbn; apply orb_false_r).
    induction Hall as [|env rest Hnone _ IH]; intros s; cbn; [reflexivity|].
    rewrite IH, (load_model_ready env s Hnone).
    now destruct (load_succeeds env), (existsb load_succeeds rest).
Qed.

Lemma load_model_readiness_witness :
  Forall (λ env, joblib_load env (model_path env) ≠ Ok None)
    [Sample.env_missing; Sample.env_corrupt; Sample.env]
  ∧ is_ready (load_attempts [Sample.env_missing; Sample.env_corrupt; Sample.env]
                initial)
    = existsb load_succeeds [Sample.env_missing; Sample.env_corrupt; Sample.env].
Proof.
  assert (H : Forall (λ env, joblib_load env (model_path env) ≠ Ok None)
                [Sample.env_missing; Sample.env_corrupt; Sample.env]).
  { repeat constructor; vm_compute; discriminate. }
  split; [exact H|].
  exact (proj2 (proj2 load_model_readiness) _ H).
Defined.

(** A file that unpickles to [None]: the load reports success and records
    a load time, and the service is not ready; a service that was ready is
    not ready any more. *)
Lemma load_model_readiness_counterexample :
  path_exists Sample2.env_none (model_path Sample2.env_none) = true
  ∧ joblib_load Sample2.env_none (model_path Sample2.env_none) = Ok None
  ∧ (load_model Sample2.env_none initial).1 = Ok true
  ∧ is_ready (load_model Sample2.env_none initial).2 = false
  ∧ model_loaded_at (load_model Sample2.env_none initial).2
      = Some (utcnow Sample2.env_none 0)
  ∧ is_ready Sample.loaded = true
  ∧ (load_model Sample2.env_none Sample.loaded).1 = Ok true
  ∧ is_ready (load_model Sample2.env_none Sample.loaded).2 = false.
Proof. vm_compute. repeat split. Qed.

(** Missing file, corrupt file, good file, in that order from start-up. *)
Example load_history :
  is_ready (load_attempts [Sample.env_missing] initial) = false
  ∧ is_ready (load_attempts [Sample.env_missing; Sample.env_corrupt] initial) = false
  ∧ is_ready (load_attempts [Sample.env_missing; Sample.env] initial) = true
  ∧ is_ready (load_attempts [Sample.env; Sample.env_corrupt] initial) = true.
Proof. vm_compute. repeat split. Qed.

(** ** Schema validation *)

(** The range tests of [check] fail exactly on the numbers that lie
    outside the declared bounds. *)
Lemma range_int_spec info n :
  range_int info n ≠ None ↔ out_of_range_int info n.
Proof.
  unfold range_int, out_of_range_int.
  destruct (ge info) as [b|], (le info) as [b'|];
    repeat match goal with
    | |- context [?a <=? ?b] => destruct (Z.leb_spec a b)
    end;
    (split;
     [ intros Hne; first [ congruence
                       | left; eexists; split; [reflexivity|lia]
                       | right; eexists; split; [reflexivity|lia] ]
     | intros [(c & Hc & Hlt)|(c & Hc & Hlt)];
       first [ discriminate Hc | injection Hc as <-; first [lia | discriminate] ] ]).
Qed.

Lemma range_float_spec info x :
  range_float info x ≠ None ↔ out_of_range_float info x.
Proof.
  unfold range_float, out_of_range_float.
  destruct (ge info) as [b|], (le info) as [b'|];
    repeat match goal with
    | |- context [fle ?a ?b] =>
        let E := fresh "E" in destruct (fle a b) eqn:E
    end;
    (split;
     [ intros Hne; first [ congruence
                       | left; eexists; split; [reflexivity|assumption]
                       | right; eexists; split; [reflexivity|assumption] ]
     | intros [(c & Hc & Hlt)|(c & Hc & Hlt)];
       first [ discriminate Hc
             | injection Hc as <-; first [congruence | discriminate] ] ]).
Qed.

Section ValidationFacts.

Context (to_float : json → option float)
        (to_int : json → option Z)
        (to_str : json → option string).

(** [check] finds a problem exactly where the input violates the
    declaration. *)
Lemma check_violates info v :
  check to_float to_int to_str info v ≠ None ↔
  violates to_float to_int to_str info v.
Proof.
  unfold check, violates. destruct v as [j|].
  - destruct (field_type info).
    + destruct (to_float j) as [x|]; [apply range_float_spec|].
      split; [auto|discriminate].
    + destruct (to_int j) as [n|]; [apply range_int_spec|].
      split; [auto|discriminate].
    + destruct (to_str j); split; congruence.
  - destruct (field_default info); split; congruence.
Qed.

Lemma collect_names d fields name :
  name ∈ (collect_errors to_float to_int to_str d fields).*1 ↔
  ∃ info, (name, info) ∈ fields
        ∧ check to_float to_int to_str info (d !! name) ≠ None.
Proof.
  unfold collect_errors. rewrite list_elem_of_fmap. split.
  - intros ([n p] & -> & Hin). apply list_elem_of_omap in Hin
      as ([n' info] & Hin & Hsome). cbn in *.
    destruct (check _ _ _ info (d !! n')) as [p'|] eqn:Hc; [|discriminate].
    cbn in Hsome. injection Hsome as -> ->.
    exists info. split; [assumption|congruence].
  - intros (info & Hin & Hne).
    destruct (check _ _ _ info (d !! name)) as [p|] eqn:Hc; [|congruence].
    exists (name, p). split; [reflexivity|].
    apply list_elem_of_omap. exists (name, info). split; [assumption|].
    cbn. now rewrite Hc.
Qed.

Lemma collect_NoDup d fields :
  NoDup fields.*1 → NoDup (collect_errors to_float to_int to_str d fields).*1.
Proof.
  induction fields as [|[n info] fields IH]; cbn; [constructor|].
  intros [Hn Hnd]%NoDup_cons. specialize (IH Hnd).
  destruct (check _ _ _ info (d !! n)) as [p|]; cbn; [|exact IH].
  apply NoDup_cons. split; [|exact IH].
  intros (info' & Hin & _)%collect_names. apply Hn.
  apply list_elem_of_fmap. now exists (n, info').
Qed.

Lemma model_fields_NoDup : NoDup model_fields.*1.
Proof. apply (bool_decide_unpack _). vm_compute. exact I. Qed.

(** C7.  An input that violates the schema is rejected, and the error it
    is rejected with names every violated field, each once: the fields
    named are exactly those that are missing though required, that do not
    convert to their annotated type, or whose number lies below the
    declared [ge] or above the declared [le]. *)
Theorem validation_collects_all (d : gmap string json)
    (Hbad : ∃ name, violated to_float to_int to_str d name) :
  ∃ errors, validate to_float to_int to_str d = inl errors
    ∧ (∀ name, violated to_float to_int to_str d name ↔ name ∈ errors.*1)
    ∧ NoDup errors.*1.
Proof.
  exists (field_errors to_float to_int to_str d).
  assert (Hnames : ∀ name, violated to_float to_int to_str d name
                         ↔ name ∈ (field_errors to_float to_int to_str d).*1).
  { intros name. unfold violated, field_errors.
    rewrite (collect_names d model_fields name).
    split; intros (info & Hin & Hv); exists info; (split; [exact Hin|]);
      now apply check_violates. }
  split; [|split; [exact Hnames|]].
  - unfold validate.
    destruct (field_errors to_float to_int to_str d) as [|err errs] eqn:Herrs;
      [|reflexivity].
    destruct Hbad as [name Hname]. apply Hnames in Hname. inversion Hname.
  - apply collect_NoDup, model_fields_NoDup.
Qed.

End ValidationFacts.

Lemma validation_collects_all_witness :
  (∃ name, violated Sample.to_float Sample.to_int Sample.to_str Sample.bad_body name)
  ∧ ∃ errors,
      validate Sample.to_float Sample.to_int Sample.to_str Sample.bad_body = inl errors
      ∧ (∀ name, violated Sample.to_float Sample.to_int Sample.to_str
                   Sample.bad_body name ↔ name ∈ errors.*1)
      ∧ NoDup errors.*1.
Proof.
  assert (H : ∃ name, violated Sample.to_float Sample.to_int Sample.to_str
                        Sample.bad_body name).
  { exists "land", (Field TInt Ellipsis (Some 0) (Some 1)).
    split; [repeat constructor|].
    assert (Hland : Sample.bad_body !! "land" = Some (JInt 2))
      by (vm_compute; reflexivity).
    unfold violates. rewrite Hland. cbn.
    right. exists 1. split; [reflexivity|lia]. }
  split; [exact H|].
  exact (validation_collects_all Sample.to_float Sample.to_int Sample.to_str
           Sample.bad_body H).
Defined.

(** The three things wrong with [Sample.bad_body] are all reported. *)
Example bad_body_errors :
  validate Sample.to_float Sample.to_int Sample.to_str Sample.bad_body =
  inl [("flag", Missing); ("land", NotLe 1); ("serror_rate", NotLe 1)].
Proof. vm_compute. reflexivity. Qed.

Example benign_body_accepted :
  validate Sample.to_float Sample.to_int Sample.to_str Sample.benign_body =
  inr Sample.benign.
Proof. vm_compute. reflexivity. Qed.

Example sample_records_valid :
  valid Sample.benign = true ∧ valid Sample.benign_udp = true
  ∧ valid Sample.flood = true ∧ valid Sample.oversized = true.
Proof. vm_compute. repeat split. Qed.

(** What validation accepts is a valid record. *)
Section Accepts.

Context (to_float : json → option float)
        (to_int : json → option Z)
        (to_str : json → option string).

Lemma check_in_range info (d : gmap string json) name :
  field_default info = Ellipsis →
  check to_float to_int to_str info (d !! name) = None →
  in_range info
    match field_type info with
    | TFloat => PNum (NFloat (get_float to_float d name))
    | TInt => PNum (NInt (get_int to_int d name))
    | TStr => PStr (get_str to_str d name)
    end = true.
Proof.
  intros Hreq. unfold check, in_range, get_float, get_int, get_str.
  rewrite Hreq.
  destruct (d !! name) as [j|]; [|discriminate]. cbn.
  destruct (field_type info).
  - destruct (to_float j); [|discriminate]. cbn. now intros ->.
  - destruct (to_int j); [|discriminate]. cbn. now intros ->.
  - reflexivity.
Qed.

Lemma validate_accepts (d : gmap string json) r :
  validate to_float to_int to_str d = inr r →
  r = construct to_float to_int to_str d ∧ valid r = true.
Proof.
  unfold validate.
  destruct (field_errors to_float to_int to_str d) eqn:Herrs; [|discriminate].
  intros [= <-]. split; [reflexivity|].
  assert (Hall : ∀ name info, (name, info) ∈ model_fields →
                   check to_float to_int to_str info (d !! name) = None).
  { intros name info Hin.
    destruct (check to_float to_int to_str info (d !! name)) eqn:Hc; [|reflexivity].
    assert (Hn : name ∈ (field_errors to_float to_int to_str d).*1).
    { apply collect_names. exists info. split; [assumption|congruence]. }
    rewrite Herrs in Hn. inversion Hn. }
  apply Is_true_true, forallb_True.
  assert (Hf : Forall (λ '(name, info),
      check to_float to_int to_str info (d !! name) = None) model_fields).
  { apply Forall_forall. intros [name info] Hin. now apply Hall. }
  unfold model_fields in *.
  repeat match goal with
  | H : Forall _ (_ :: _) |- _ => apply Forall_cons in H as [?Hc H]
  end.
  repeat (constructor;
    [ apply Is_true_true;
      match goal with Hc : check _ _ _ ?info (d !! ?n) = None |- _ =>
        exact (check_in_range info d n eq_refl Hc) end
    | ]).
  constructor.
Qed.

End Accepts.

(** * Further properties *)

(** ** The handlers, with the state they leave *)

(** One inference with a model loaded: the outcome is [classify]'s, and
    the state has gained the calls made and, on success, one clock read. *)
Lemma predict_full env s m features :
  model s = Some m →
  predict features env s =
    match classify m features with
    | Ok (c, conf) =>
        (Ok (response c conf (utcnow env (clock s))),
         after s 1 (inference_events m features))
    | Raise e =>
        (Raise (HTTPException 500 ("Prediction failed: " +:+ str e)),
         after s 0 (inference_events m features
                    ++ [LogError ("Prediction error: " +:+ str e)]))
    end.
Proof.
  destruct s as [mo la ck tr]. cbn. intros ->.
  unfold predict, classify, inference_events. unfold_ops. cbn.
  destruct (preprocess_features features) as [x|e]; cbn;
    [|solve_state].
  destruct (Model.predict m x) as [ys|e]; cbn; [|solve_state].
  destruct (index0 ys) as [c|e]; cbn; [|solve_state].
  destruct (Model.predict_proba m x) as [p|e]; cbn; [|solve_state].
  destruct (np_max p) as [conf|e]; cbn; solve_state.
Qed.

Lemma after_after s n1 evs1 n2 evs2 :
  after (after s n1 evs1) n2 evs2 = after s (n2 + n1) (evs1 ++ evs2).
Proof.
  unfold after. cbn. f_equal; [lia|now rewrite app_assoc].
Qed.

Lemma after_model s n evs : model (after s n evs) = model s.
Proof. reflexivity. Qed.

(** One turn of the loop, seen from a state with [m] loaded. *)
Lemma batch_loop_cons features rest acc env s m :
  model s = Some m →
  batch_loop (features :: rest) acc env s =
    match classify m features with
    | Ok (c, conf) =>
        batch_loop rest (acc ++ [response c conf (utcnow env (clock s))]) env
          (after s 1 (inference_events m features))
    | Raise e => (Raise e, after s 0 (inference_events m features))
    end.
Proof.
  destruct s as [mo la ck tr]. cbn. intros ->.
  unfold classify, inference_events. unfold_ops. cbn.
  destruct (preprocess_features features) as [x|e]; cbn; [|solve_state].
  destruct (Model.predict m x) as [ys|e]; cbn; [|solve_state].
  destruct (index0 ys) as [c|e]; cbn; [|solve_state].
  destruct (Model.predict_proba m x) as [p|e]; cbn; [|solve_state].
  destruct (np_max p) as [conf|e]; cbn; [|solve_state].
  unfold after. cbn. now rewrite <- !app_assoc.
Qed.

(** The whole loop: what it returns and the state it leaves. *)
Lemma batch_loop_full items : ∀ acc env s m,
  model s = Some m →
  batch_loop items acc env s =
    (match responses m env (clock s) items with
     | Ok rs => Ok (acc ++ rs)%list
     | Raise e => Raise e
     end,
     after s (answered m items) (batch_events m items)).
Proof.
  induction items as [|features rest IH]; intros acc env s m Hm.
  - cbn. rewrite app_nil_r. unfold after. cbn. rewrite app_nil_r.
    now destruct s.
  - rewrite (batch_loop_cons _ _ _ _ _ _ Hm). cbn [responses batch_events answered].
    destruct (classify m features) as [[c conf]|e]; [|now rewrite app_nil_r].
    rewrite (IH _ _ _ m) by exact Hm. rewrite after_after. cbn [clock after].
    change (1 + clock s)%nat with (S (clock s)).
    replace (answered m rest + 1)%nat with (S (answered m rest)) by lia.
    destruct (responses m env (S (clock s)) rest); [|reflexivity].
    now rewrite <- app_assoc.
Qed.

Lemma answered_ok m env items : ∀ n rs,
  responses m env n items = Ok rs → answered m items = length items.
Proof.
  induction items as [|f rest IH]; intros n rs; cbn; [reflexivity|].
  destruct (classify m f) as [[c conf]|]; [|discriminate].
  destruct (responses m env (S n) rest) as [rs'|] eqn:Hrest; [|discriminate].
  intros _. f_equal. eauto.
Qed.

Lemma batch_events_ok m env items : ∀ n rs,
  responses m env n items = Ok rs → batch_events m items = flat_map calls items.
Proof.
  induction items as [|f rest IH]; intros n rs; cbn; [reflexivity|].
  destruct (classify m f) as [[c conf]|] eqn:Hc; [|discriminate].
  destruct (responses m env (S n) rest) as [rs'|] eqn:Hrest; [|discriminate].
  intros _. rewrite (IH _ _ Hrest). f_equal.
  apply classify_ok in Hc as (x & ys & p & Hx & Hys & Hp & Hmax).
  unfold inference_events, calls. now rewrite Hx, Hys.
Qed.

(** [predict_batch] with a model loaded, with the state it leaves. *)
Lemma predict_batch_full env s m request :
  model s = Some m →
  predict_batch request env s =
    match responses m env (S (clock s)) (BatchPredictionRequest.features request) with
    | Ok rs =>
        (Ok {| BatchPredictionResponse.predictions := rs;
               BatchPredictionResponse.total_processed := Z.of_nat (length rs);
               BatchPredictionResponse.processing_time_ms :=
                 fmul (fsub (time_time env (S (length rs + clock s)))
                            (time_time env (clock s)))
                      (float_of_int 1000) |},
         after s (2 + length rs)
           (flat_map calls (BatchPredictionRequest.features request)))
    | Raise e =>
        (Raise (HTTPException 500 ("Batch prediction failed: " +:+ str e)),
         after s (1 + answered m (BatchPredictionRequest.features request))
           (batch_events m (BatchPredictionRequest.features request)
            ++ [LogError ("Batch prediction error: " +:+ str e)]))
    end.
Proof.
  intros Hm. unfold predict_batch.
  unfold try_except, time_time_, tick, asks, logger_error, emit, raise, gets,
    mbind, M_bind, mret, M_ret.
  rewrite Hm.
  match goal with |- context [batch_loop ?items ?acc env ?s1] =>
    rewrite (batch_loop_full items acc env s1 m Hm) end.
  cbn [clock].
  destruct (responses m env (S (clock s)) (BatchPredictionRequest.features request))
    as [rs|e] eqn:Hrs.
  - rewrite (answered_ok _ _ _ _ _ Hrs), (batch_events_ok _ _ _ _ _ Hrs).
    rewrite <- (responses_length _ _ _ _ _ Hrs).
    unfold after. cbn. now rewrite !Nat.add_succ_r.
  - unfold after. cbn. rewrite <- !app_assoc, !Nat.add_succ_r. reflexivity.
Qed.

Lemma predict_unloaded env s features :
  model s = None → predict features env s = (Raise not_loaded, s).
Proof. intros Hm. unfold predict, gets, raise, mbind, M_bind. now rewrite Hm. Qed.

Lemma predict_batch_unloaded env s request :
  model s = None → predict_batch request env s = (Raise not_loaded, s).
Proof. intros Hm. unfold predict_batch, gets, raise, mbind, M_bind. now rewrite Hm. Qed.

Lemma after_0_nil s : after s 0 [] = s.
Proof. destruct s. unfold after. cbn. now rewrite app_nil_r. Qed.

(** ** Failures of the model in [predict] *)

(** X1.  With a model loaded, when [model.predict] raises [e] on the
    encoded record, [predict] raises the 500 whose detail ends in [str(e)];
    it has logged that one error, has not called [predict_proba], and has
    not read the clock.  When [predict] answers and [predict_proba] raises,
    the 500 names that exception instead. *)
Theorem predict_model_failure env s m features x e
    (Hm : model s = Some m) (Hx : preprocess_features features = Ok x) :
  (Model.predict m x = Raise e →
   predict features env s =
     (Raise (HTTPException 500 ("Prediction failed: " +:+ str e)),
      after s 0 [Encode features; Predict x;
                 LogError ("Prediction error: " +:+ str e)]))
  ∧ (∀ c ys, Model.predict m x = Ok (c :: ys) →
     Model.predict_proba m x = Raise e →
     predict features env s =
       (Raise (HTTPException 500 ("Prediction failed: " +:+ str e)),
        after s 0 [Encode features; Predict x; PredictProba x;
                   LogError ("Prediction error: " +:+ str e)])).
Proof.
  split.
  - intros He. rewrite (predict_full _ _ _ _ Hm).
    unfold classify, inference_events. now rewrite Hx, He.
  - intros c ys Hys He. rewrite (predict_full _ _ _ _ Hm).
    unfold classify, inference_events. rewrite Hx, Hys. cbn. now rewrite He.
Qed.

Lemma predict_model_failure_witness :
  model Sample.loaded = Some Sample.threshold_model
  ∧ (∃ x, preprocess_features Sample.oversized = Ok x)
  ∧ ∃ detail s',
      predict Sample.oversized Sample.env Sample.loaded =
        (Raise (HTTPException 500 detail), s').
Proof.
  split; [reflexivity|].
  destruct (preprocess_features Sample.oversized) as [x|e] eqn:Hx.
  2: { vm_compute in Hx. discriminate Hx. }
  split; [eexists; reflexivity|].
  eexists _, _.
  apply (proj1 (predict_model_failure Sample.env Sample.loaded
                  Sample.threshold_model Sample.oversized x
                  (Exception "Input X contains infinity or a value too large")
                  eq_refl Hx)).
  vm_compute in Hx. injection Hx as <-. vm_compute. reflexivity.
Defined.

(** X2.  A model whose [predict] returns no label, or whose
    [predict_proba] returns no probability, makes [predict] raise a 500 as
    well; in the first case [predict_proba] is not called. *)
Theorem predict_degenerate_output env s m features x
    (Hm : model s = Some m) (Hx : preprocess_features features = Ok x) :
  (Model.predict m x = Ok [] →
   ∃ e, predict features env s =
          (Raise (HTTPException 500 ("Prediction failed: " +:+ str e)),
           after s 0 [Encode features; Predict x;
                      LogError ("Prediction error: " +:+ str e)]))
  ∧ (∀ c ys p, Model.predict m x = Ok (c :: ys) →
     Model.predict_proba m x = Ok p → concat p = [] →
     ∃ e, predict features env s =
            (Raise (HTTPException 500 ("Prediction failed: " +:+ str e)),
             after s 0 [Encode features; Predict x; PredictProba x;
                        LogError ("Prediction error: " +:+ str e)])).
Proof.
  split.
  - intros Hys. rewrite (predict_full _ _ _ _ Hm).
    unfold classify, inference_events. rewrite Hx, Hys. cbn.
    now exists (Exception "index 0 is out of bounds for axis 0 with size 0").
  - intros c ys p Hys Hp Hnil. rewrite (predict_full _ _ _ _ Hm).
    unfold classify, inference_events, np_max. rewrite Hx, Hys. cbn.
    rewrite Hp, Hnil.
    now exists (Exception
      "zero-size array to reduction operation maximum which has no identity").
Qed.

Lemma predict_degenerate_output_witness :
  ∃ x e s',
    preprocess_features Sample.benign = Ok x
    ∧ predict Sample.benign Sample.env
        {| model := Some {| Model.predict _ := Ok [];
                            Model.predict_proba _ := Ok [] |};
           model_loaded_at := None; clock := 0%nat; trace := [] |} =
        (Raise (HTTPException 500 ("Prediction failed: " +:+ str e)), s').
Proof.
  destruct (preprocess_features Sample.benign) as [x|e] eqn:Hx.
  2: { vm_compute in Hx. discriminate Hx. }
  destruct (proj1 (predict_degenerate_output Sample.env
             {| model := Some {| Model.predict _ := Ok [];
                                 Model.predict_proba _ := Ok [] |};
                model_loaded_at := None; clock := 0%nat; trace := [] |}
             _ Sample.benign x eq_refl Hx) eq_refl) as [e He].
  exists x, e. eexists. split; [reflexivity|exact He].
Defined.

(** ** What the handlers leave alone *)

(** X4.  No request handler touches the model handle: after [predict],
    [predict_batch], [health_check] or [root] the state is the one before
    with the clock further on and events appended to the trace; [model]
    and [model_loaded_at] are as they were. *)
Theorem handlers_preserve_handle env s :
  (∀ features, ∃ n evs, (predict features env s).2 = after s n evs)
  ∧ (∀ request, ∃ n evs, (predict_batch request env s).2 = after s n evs)
  ∧ (∃ n evs, (health_check env s).2 = after s n evs)
  ∧ (∃ n evs, (root env s).2 = after s n evs).
Proof.
  split; [|split; [|split]].
  - intros features. destruct (model s) as [m|] eqn:Hm.
    + rewrite (predict_full _ _ _ _ Hm).
      destruct (classify m features) as [[c conf]|e]; cbn; eauto.
    + rewrite (predict_unloaded _ _ _ Hm). exists 0%nat, []. cbn.
      now rewrite after_0_nil.
  - intros request. destruct (model s) as [m|] eqn:Hm.
    + rewrite (predict_batch_full _ _ _ _ Hm).
      destruct (responses _ _ _ _); cbn; eauto.
    + rewrite (predict_batch_unloaded _ _ _ Hm). exists 0%nat, []. cbn.
      now rewrite after_0_nil.
  - unfold health_check, time_time_, tick, asks, gets, mbind, M_bind, mret, M_ret.
    destruct s as [mo [d|] ck tr]; cbn.
    + exists 1%nat, []. unfold after. cbn. now rewrite app_nil_r.
    + exists 2%nat, []. unfold after. cbn. now rewrite app_nil_r.
  - exists 0%nat, []. rewrite after_0_nil. reflexivity.
Qed.

(** X5.  A [predict] that goes through has asked the encoder once and the
    model twice, [predict] then [predict_proba], both on the encoded
    vector; it has read the clock once, for the timestamp of the response,
    and has logged nothing.  The response carries the model version. *)
Theorem predict_success_calls env s m features x c ys p conf
    (Hm : model s = Some m)
    (Hx : preprocess_features features = Ok x)
    (Hys : Model.predict m x = Ok (c :: ys))
    (Hp : Model.predict_proba m x = Ok p)
    (Hmax : np_max p = Ok conf) :
  predict features env s =
    (Ok {| PredictionResponse.prediction := if c =? 1 then "malicious" else "normal";
           PredictionResponse.confidence := conf;
           PredictionResponse.threat_type := if c =? 1 then Some "unknown" else None;
           PredictionResponse.model_version := "v1.0";
           PredictionResponse.timestamp := utcnow env (clock s) |},
     after s 1 [Encode features; Predict x; PredictProba x]).
Proof.
  rewrite (predict_full _ _ _ _ Hm).
  unfold classify, inference_events. rewrite Hx, Hys. cbn.
  now rewrite Hp, Hmax.
Qed.

Lemma predict_success_calls_witness :
  ∃ x r s',
    preprocess_features Sample.flood = Ok x
    ∧ predict Sample.flood Sample.env Sample.loaded = (Ok r, s')
    ∧ trace s' = [Encode Sample.flood; Predict x; PredictProba x].
Proof.
  destruct (preprocess_features Sample.flood) as [x|e] eqn:Hx.
  2: { vm_compute in Hx. discriminate Hx. }
  assert (Hys : Model.predict Sample.threshold_model x = Ok [1]).
  { vm_compute in Hx. injection Hx as <-. vm_compute. reflexivity. }
  exists x. eexists _, _. split; [reflexivity|]. split.
  - exact (predict_success_calls Sample.env Sample.loaded Sample.threshold_model
             Sample.flood x 1 [] [[Sample.zero; Sample.one]] Sample.one
             eq_refl Hx Hys eq_refl eq_refl).
  - reflexivity.
Defined.

(** ** Batches *)

Lemma responses_stamps m env items : ∀ n rs (i : nat) r,
  responses m env n items = Ok rs → rs !! i = Some r →
  PredictionResponse.timestamp r = utcnow env (n + i)
  ∧ PredictionResponse.model_version r = model_version.
Proof.
  induction items as [|f rest IH]; intros n rs i r; cbn.
  - intros [= <-]. now rewrite lookup_nil.
  - destruct (classify m f) as [[c conf]|]; [|discriminate].
    destruct (responses m env (S n) rest) as [rs'|] eqn:Hrest; [|discriminate].
    intros [= <-]. destruct i as [|i]; cbn.
    + intros [= <-]. cbn. now rewrite Nat.add_0_r.
    + intros Hr. destruct (IH _ _ _ _ Hrest Hr) as [-> ->].
      split; [f_equal; lia|reflexivity].
Qed.

Lemma responses_ok_inv m env items : ∀ n rs,
  responses m env n items = Ok rs → Forall (answers m) items.
Proof.
  induction items as [|f rest IH]; intros n rs; cbn; [constructor|].
  destruct (classify m f) as [[c conf]|] eqn:Hc; [|discriminate].
  destruct (responses m env (S n) rest) as [rs'|] eqn:Hrest; [|discriminate].
  intros _. constructor; [now exists c, conf|eauto].
Qed.

Lemma inference_events_ok m f c conf :
  classify m f = Ok (c, conf) → inference_events m f = calls f.
Proof.
  intros (x & ys & p & Hx & Hys & _)%classify_ok.
  unfold inference_events, calls. now rewrite Hx, Hys.
Qed.

(** A loop whose first failing item is [f], after the items [pre]. *)
Lemma responses_first_failure m env pre f post e : ∀ n,
  Forall (answers m) pre → classify m f = Raise e →
  responses m env n (pre ++ f :: post) = Raise e
  ∧ answered m (pre ++ f :: post) = length pre
  ∧ batch_events m (pre ++ f :: post)
    = (flat_map calls pre ++ inference_events m f)%list.
Proof.
  induction pre as [|g pre IH]; intros n Hpre He;
    cbn [app responses answered batch_events length flat_map].
  - rewrite He. now rewrite app_nil_r.
  - apply Forall_cons in Hpre as [(c & conf & Hc) Hpre].
    destruct (IH (S n) Hpre He) as (-> & -> & ->).
    rewrite Hc, (inference_events_ok _ _ _ _ Hc), <- app_assoc. auto.
Qed.

(** X6.  A batch of [N] records that goes through has read the clock
    [N + 2] times and made the three calls of every record, in input
    order, logging nothing.  Its processing time is 1000 times the
    difference between the reading after the last record and the reading
    before the first; the [i]-th prediction is stamped with the [i]-th
    reading in between and carries the model version. *)
Theorem batch_success_effects env s m request resp s'
    (Hm : model s = Some m)
    (Hrun : predict_batch request env s = (Ok resp, s')) :
  let items := BatchPredictionRequest.features request in
  s' = after s (2 + length items) (flat_map calls items)
  ∧ BatchPredictionResponse.processing_time_ms resp =
      fmul (fsub (time_time env (S (length items + clock s)))
                 (time_time env (clock s)))
           (float_of_int 1000)
  ∧ ∀ (i : nat) r,
      BatchPredictionResponse.predictions resp !! i = Some r →
      PredictionResponse.timestamp r = utcnow env (S (clock s) + i)
      ∧ PredictionResponse.model_version r = "v1.0".
Proof.
  intros items. subst items.
  rewrite (predict_batch_full _ _ _ _ Hm) in Hrun.
  destruct (responses m env (S (clock s)) (BatchPredictionRequest.features request))
    as [rs|e] eqn:Hrs; [|discriminate].
  injection Hrun as <- <-. cbn.
  rewrite (responses_length _ _ _ _ _ Hrs).
  split; [reflexivity|]. split; [reflexivity|].
  intros i r Hr. exact (responses_stamps _ _ _ _ _ _ _ Hrs Hr).
Qed.

Lemma batch_success_effects_witness :
  ∃ resp s',
    predict_batch
      {| BatchPredictionRequest.features := [Sample.flood; Sample.benign] |}
      Sample.env Sample.loaded = (Ok resp, s')
    ∧ clock s' = 5%nat
    ∧ length (trace s') = 6%nat.
Proof.
  destruct (predict_batch
              {| BatchPredictionRequest.features := [Sample.flood; Sample.benign] |}
              Sample.env Sample.loaded) as [[resp|e] s'] eqn:Hrun.
  2: { vm_compute in Hrun. discriminate Hrun. }
  exists resp, s'. split; [reflexivity|].
  destruct (batch_success_effects Sample.env Sample.loaded Sample.threshold_model
              _ resp s' eq_refl Hrun) as (-> & _).
  split; reflexivity.
Defined.

(** X7.  Batch and single prediction agree.  With a model loaded, a batch
    goes through exactly when [predict] would go through on each of its
    records, and then each prediction of the batch says what [predict]
    says for that record, in any environment and state with that model:
    the same label, confidence and threat type. *)
Theorem batch_agrees_with_predict env s m request (Hm : model s = Some m) :
  ((∃ resp, (predict_batch request env s).1 = Ok resp) ↔
   Forall (λ f, ∃ r, (predict f env s).1 = Ok r)
     (BatchPredictionRequest.features request))
  ∧ (∀ resp, (predict_batch request env s).1 = Ok resp →
     Forall2 (λ f r, ∀ env' s', model s' = Some m →
                same_answer (predict f env' s').1 (Ok r))
       (BatchPredictionRequest.features request)
       (BatchPredictionResponse.predictions resp)).
Proof.
  assert (Hone : ∀ f, (∃ r, (predict f env s).1 = Ok r) ↔ answers m f).
  { intros f. rewrite (predict_full _ _ _ _ Hm). unfold answers.
    destruct (classify m f) as [[c conf]|e]; cbn.
    - split; eauto.
    - split; [intros [r Hr]; discriminate|intros (c & conf & Hc); discriminate]. }
  rewrite (predict_batch_full _ _ _ _ Hm).
  destruct (responses m env (S (clock s)) (BatchPredictionRequest.features request))
    as [rs|e] eqn:Hrs; cbn.
  - split.
    + split; [intros _|eauto].
      eapply Forall_impl; [exact (responses_ok_inv _ _ _ _ _ Hrs)|].
      intros f Hf. now apply Hone.
    + intros resp [= <-]. cbn.
      eapply Forall2_impl; [exact (responses_Forall2 _ _ _ _ _ Hrs)|]. cbn.
      intros f r (c & conf & now & Hc & ->) env' s1 Hm1.
      rewrite (predict_full _ _ _ _ Hm1), Hc. cbn. auto.
  - split; [|intros resp; discriminate].
    split; [intros [resp Hresp]; discriminate|].
    intros Hall. exfalso.
    destruct (responses_ok m env (BatchPredictionRequest.features request)
                (S (clock s))) as [rs Hok]; [|congruence].
    eapply Forall_impl; [exact Hall|]. intros f Hf. now apply Hone.
Qed.

Lemma batch_agrees_with_predict_witness :
  model Sample.loaded = Some Sample.threshold_model
  ∧ ¬ (∃ resp,
         (predict_batch
            {| BatchPredictionRequest.features := [Sample.flood; Sample.oversized] |}
            Sample.env Sample.loaded).1 = Ok resp).
Proof.
  split; [reflexivity|].
  intros Hok.
  apply (proj1 (batch_agrees_with_predict Sample.env Sample.loaded
                  Sample.threshold_model _ eq_refl)) in Hok.
  apply Forall_cons in Hok as [_ Hok]. apply Forall_cons in Hok as [[r Hr] _].
  vm_compute in Hr. discriminate Hr.
Defined.

(** X8.  A batch stops at its first failure.  When the model answers on
    the records [pre] and [model.predict] raises [e] on the next one, the
    batch raises the 500 that names [e]; the records after it are never
    encoded nor shown to the model, and the clock has been read once per
    record answered and once at the start. *)
Theorem batch_stops_at_first_failure env s m pre f post x e
    (Hm : model s = Some m)
    (Hpre : Forall (answers m) pre)
    (Hx : preprocess_features f = Ok x)
    (He : Model.predict m x = Raise e) :
  predict_batch {| BatchPredictionRequest.features := pre ++ f :: post |} env s =
    (Raise (HTTPException 500 ("Batch prediction failed: " +:+ str e)),
     after s (1 + length pre)
       (flat_map calls pre
        ++ [Encode f; Predict x; LogError ("Batch prediction error: " +:+ str e)])).
Proof.
  assert (Hc : classify m f = Raise e) by (unfold classify; now rewrite Hx, He).
  rewrite (predict_batch_full _ _ _ _ Hm). cbn.
  destruct (responses_first_failure m env pre f post e (S (clock s)) Hpre Hc)
    as (-> & -> & ->).
  unfold inference_events. rewrite Hx, He. now rewrite <- app_assoc.
Qed.

Lemma batch_stops_at_first_failure_witness :
  ∃ detail s',
    predict_batch
      {| BatchPredictionRequest.features :=
           ([Sample.flood] ++ Sample.oversized :: [Sample.benign; Sample.flood])%list |}
      Sample.env Sample.loaded = (Raise (HTTPException 500 detail), s')
    ∧ clock s' = 3%nat.
Proof.
  destruct (preprocess_features Sample.oversized) as [x|e] eqn:Hx.
  2: { vm_compute in Hx. discriminate Hx. }
  assert (Hys : Model.predict Sample.threshold_model x =
                Raise (Exception "Input X contains infinity or a value too large")).
  { vm_compute in Hx. injection Hx as <-. vm_compute. reflexivity. }
  assert (Hpre : Forall (answers Sample.threshold_model) [Sample.flood]).
  { constructor; [|constructor]. eexists _, _. vm_compute. reflexivity. }
  eexists _, _. split.
  - exact (batch_stops_at_first_failure Sample.env Sample.loaded
             Sample.threshold_model [Sample.flood] Sample.oversized
             [Sample.benign; Sample.flood] x _ eq_refl Hpre Hx Hys).
  - reflexivity.
Defined.

(** ** The response *)

Lemma np_maximum_cases a b : np_maximum a b = a ∨ np_maximum a b = b.
Proof. unfold np_maximum. destruct (fle b a || is_nan a); auto. Qed.

Lemma fold_np_maximum_elem xs : ∀ x, fold_left np_maximum xs x ∈ x :: xs.
Proof.
  induction xs as [|y xs IH]; intros x; cbn; [apply elem_of_cons; auto|].
  specialize (IH (np_maximum x y)).
  apply elem_of_cons in IH as [IH|IH].
  - rewrite IH. destruct (np_maximum_cases x y) as [-> | ->];
      rewrite !elem_of_cons; auto.
  - rewrite !elem_of_cons; auto.
Qed.

Lemma np_max_elem p conf : np_max p = Ok conf → conf ∈ concat p.
Proof.
  unfold np_max. destruct (concat p) as [|x xs]; [discriminate|].
  intros [= <-]. apply fold_np_maximum_elem.
Qed.

(** X9.  The confidence of a prediction is one of the probabilities the
    model gave for that record: nothing is computed from them, one of them
    is picked. *)
Theorem confidence_is_a_model_probability env s m features r s'
    (Hm : model s = Some m)
    (Hrun : predict features env s = (Ok r, s')) :
  ∃ x p, preprocess_features features = Ok x
       ∧ Model.predict_proba m x = Ok p
       ∧ PredictionResponse.confidence r ∈ concat p.
Proof.
  rewrite (predict_full _ _ _ _ Hm) in Hrun.
  destruct (classify m features) as [[c conf]|e] eqn:Hc; [|discriminate].
  injection Hrun as <- <-.
  apply classify_ok in Hc as (x & ys & p & Hx & Hys & Hp & Hmax).
  exists x, p. split; [exact Hx|]. split; [exact Hp|].
  cbn. now apply np_max_elem.
Qed.

Lemma confidence_is_a_model_probability_witness :
  ∃ r s' x p,
    predict Sample.flood Sample.env Sample.loaded = (Ok r, s')
    ∧ preprocess_features Sample.flood = Ok x
    ∧ Model.predict_proba Sample.threshold_model x = Ok p
    ∧ PredictionResponse.confidence r ∈ concat p.
Proof.
  destruct (predict Sample.flood Sample.env Sample.loaded) as [[r|e] s'] eqn:Hrun.
  2: { vm_compute in Hrun. discriminate Hrun. }
  destruct (confidence_is_a_model_probability Sample.env Sample.loaded
              Sample.threshold_model Sample.flood r s' eq_refl Hrun)
    as (x & p & Hx & Hp & Hin).
  exists r, s', x, p. auto.
Defined.

(** X10.  Whatever class the model answers, a response says one of two
    things: "malicious" with threat type "unknown", or "normal" with no
    threat type; and a class other than 1, be it 0, 2 or -1, is "normal".
    This holds for [predict] and for every prediction of a batch. *)
Theorem response_is_one_of_two env s m (Hm : model s = Some m) :
  (∀ features r s',
     predict features env s = (Ok r, s') →
     (PredictionResponse.prediction r = "malicious"
        ∧ PredictionResponse.threat_type r = Some "unknown"
      ∨ PredictionResponse.prediction r = "normal"
        ∧ PredictionResponse.threat_type r = None)
     ∧ ∀ x c ys, preprocess_features features = Ok x →
         Model.predict m x = Ok (c :: ys) → c ≠ 1 →
         PredictionResponse.prediction r = "normal"
         ∧ PredictionResponse.threat_type r = None)
  ∧ (∀ request resp s',
       predict_batch request env s = (Ok resp, s') →
       Forall (λ r, PredictionResponse.prediction r = "malicious"
                     ∧ PredictionResponse.threat_type r = Some "unknown"
                   ∨ PredictionResponse.prediction r = "normal"
                     ∧ PredictionResponse.threat_type r = None)
         (BatchPredictionResponse.predictions resp)).
Proof.
  assert (Htwo : ∀ c conf now,
    PredictionResponse.prediction (response c conf now) = "malicious"
      ∧ PredictionResponse.threat_type (response c conf now) = Some "unknown"
    ∨ PredictionResponse.prediction (response c conf now) = "normal"
      ∧ PredictionResponse.threat_type (response c conf now) = None).
  { intros c conf now. cbn. destruct (c =? 1); auto. }
  split.
  - intros features r s' Hrun. rewrite (predict_full _ _ _ _ Hm) in Hrun.
    destruct (classify m features) as [[c conf]|e] eqn:Hc; [|discriminate].
    injection Hrun as <- <-. split; [apply Htwo|].
    intros x c' ys Hx Hys Hne.
    apply classify_ok in Hc as (x' & ys' & p & Hx' & Hys' & _).
    assert (x' = x) by congruence. subst x'.
    assert (c' = c) by congruence. subst c'.
    cbn. now destruct (Z.eqb_spec c 1).
  - intros request resp s' Hrun. rewrite (predict_batch_full _ _ _ _ Hm) in Hrun.
    destruct (responses m env (S (clock s)) (BatchPredictionRequest.features request))
      as [rs|e] eqn:Hrs; [|discriminate].
    injection Hrun as <- <-. cbn.
    pose proof (responses_Forall2 _ _ _ _ _ Hrs) as Hall.
    apply Forall_forall. intros r Hr.
    apply list_elem_of_lookup in Hr as [i Hi].
    destruct (Forall2_lookup_r _ _ _ _ _ Hall Hi)
      as (f & _ & c & conf & now & _ & ->).
    apply Htwo.
Qed.

Lemma response_is_one_of_two_witness :
  model Sample.loaded = Some Sample.threshold_model
  ∧ ∃ r s', predict Sample.benign Sample.env Sample.loaded = (Ok r, s')
          ∧ PredictionResponse.prediction r = "normal"
          ∧ PredictionResponse.threat_type r = None.
Proof.
  split; [reflexivity|].
  destruct (predict Sample.benign Sample.env Sample.loaded) as [[r|e] s'] eqn:Hrun.
  2: { vm_compute in Hrun. discriminate Hrun. }
  exists r, s'. split; [reflexivity|].
  destruct (preprocess_features Sample.benign) as [x|e] eqn:Hx.
  2: { vm_compute in Hx. discriminate Hx. }
  refine (proj2 (proj1 (response_is_one_of_two Sample.env Sample.loaded
                          Sample.threshold_model eq_refl)
                   Sample.benign r s' Hrun) x 0 [] Hx _ _); [|lia].
  vm_compute in Hx. injection Hx as <-. vm_compute. reflexivity.
Defined.

(** ** The model handle, continued *)

(** X12.  A load that succeeds, from any state, installs the object
    [joblib.load] returned for the configured path ([MODEL_PATH], or
    [/app/model/rf_model.pkl] when it is unset) and records as load time
    the clock reading taken after unpickling; a model and a load time that
    were there before are both replaced. *)
Theorem load_model_installs env s (Hok : load_succeeds env = true) :
  let model_path := default "/app/model/rf_model.pkl" (getenv env "MODEL_PATH") in
  ∃ m, joblib_load env model_path = Ok m
     ∧ load_model env s =
         (Ok true,
          {| model := m;
             model_loaded_at := Some (utcnow env (clock s));
             clock := S (clock s);
             trace := trace s ++
               [JoblibLoad model_path;
                LogInfo ("Model loaded successfully from " +:+ model_path)] |}).
Proof.
  cbn zeta. rewrite load_succeeds_path in Hok.
  pose proof (load_model_full env s) as Hrun. cbn zeta in Hrun.
  destruct (path_exists env _); [|discriminate Hok].
  destruct (joblib_load env _) as [m|e]; [|discriminate Hok].
  exists m. split; [reflexivity|exact Hrun].
Qed.

Lemma load_model_installs_witness :
  load_succeeds Sample2.env_custom = true
  ∧ ∃ s', load_model Sample2.env_custom Sample.loaded = (Ok true, s')
        ∧ trace s' = [JoblibLoad "/srv/rf.pkl";
                      LogInfo "Model loaded successfully from /srv/rf.pkl"]
        ∧ model_loaded_at s' = Some (utcnow Sample2.env_custom 1).
Proof.
  split; [reflexivity|].
  destruct (load_model_installs Sample2.env_custom Sample.loaded eq_refl)
    as (m & _ & Hrun).
  eexists. split; [exact Hrun|]. split; reflexivity.
Defined.

(** X13.  A load that fails changes nothing but the log, and reads no
    clock.  When the file is missing, [joblib.load] is not called: the
    trace gains the warning and the hint to train first.  When the file is
    there and does not unpickle, it gains the call and the error line that
    quotes the exception. *)
Theorem load_model_failure_effects env s (Hfail : load_succeeds env = false) :
  let model_path := default "/app/model/rf_model.pkl" (getenv env "MODEL_PATH") in
  load_model env s =
    (Ok false,
     after s 0
       (if path_exists env model_path then
          match joblib_load env model_path with
          | Raise e => [JoblibLoad model_path;
                        LogError ("Error loading model: " +:+ str e)]
          | Ok _ => []
          end
        else [LogWarning ("Model file not found at " +:+ model_path);
              LogInfo "Model will need to be trained first"])).
Proof.
  cbn zeta. rewrite load_succeeds_path in Hfail.
  rewrite (load_model_full env s). cbn zeta.
  destruct (path_exists env _); [|reflexivity].
  destruct (joblib_load env _) as [m|e]; [discriminate Hfail|reflexivity].
Qed.

Lemma load_model_failure_effects_witness :
  load_succeeds Sample.env_corrupt = false
  ∧ load_model Sample.env_corrupt Sample.loaded =
      (Ok false,
       after Sample.loaded 0
         [JoblibLoad "/app/model/rf_model.pkl";
          LogError "Error loading model: invalid load key"]).
Proof.
  split; [reflexivity|].
  exact (load_model_failure_effects Sample.env_corrupt Sample.loaded eq_refl).
Defined.

(** A load keeps a load time with every loaded model. *)
Lemma load_model_keeps_time env s :
  (is_ready s = true → model_loaded_at s ≠ None) →
  is_ready (load_model env s).2 = true →
  model_loaded_at (load_model env s).2 ≠ None.
Proof.
  intros Hs. rewrite (load_model_full env s). cbn zeta.
  destruct (path_exists env _); [|exact Hs].
  destruct (joblib_load env _); [discriminate|exact Hs].
Qed.

(** X14.  A loaded model always has a load time: after any history of
    load attempts from module load, whenever [model] is not [None],
    [model_loaded_at] is not [None] either.  (Not the other way round: an
    artifact that unpickles to [None] leaves a load time and no model.) *)
Theorem loaded_model_has_load_time envs
    (Hready : is_ready (load_attempts envs initial) = true) :
  ∃ d, model_loaded_at (load_attempts envs initial) = Some d.
Proof.
  enough (H : ∀ s,
    (is_ready s = true → model_loaded_at s ≠ None) →
    is_ready (load_attempts envs s) = true →
    model_loaded_at (load_attempts envs s) ≠ None).
  { specialize (H initial). cbn in H.
    destruct (model_loaded_at (load_attempts envs initial)) as [d|]; [eauto|].
    exfalso. apply H; [discriminate|exact Hready|reflexivity]. }
  clear Hready.
  induction envs as [|env rest IH]; intros s Hs; cbn; [exact Hs|].
  apply IH. now apply load_model_keeps_time.
Qed.

Lemma loaded_model_has_load_time_witness :
  is_ready (load_attempts [Sample.env_missing; Sample.env; Sample.env_corrupt]
              initial) = true
  ∧ ∃ d, model_loaded_at
           (load_attempts [Sample.env_missing; Sample.env; Sample.env_corrupt]
              initial) = Some d.
Proof.
  split; [reflexivity|].
  exact (loaded_model_has_load_time
           [Sample.env_missing; Sample.env; Sample.env_corrupt] eq_refl).
Defined.

(** ** Start-up, then requests *)

(** X15.  What the service does after start-up follows from what the load
    found.  When the artifact unpickled to a classifier, [health_check]
    reports "healthy", version "v1.0" and the load time, and no request
    gets the 503.  When the file was missing or did not unpickle,
    [health_check] reports "degraded" with no version and no load time, and
    every [predict] and [predict_batch] gets the 503.  When the artifact
    unpickled to [None], requests get the 503 and health is "degraded" with
    no version as well, yet a load time is reported. *)
Theorem startup_then_requests env :
  let s1 := (startup_event env initial).2 in
  ∃ h s2, health_check env s1 = (Ok h, s2)
    ∧ if path_exists env (model_path env) then
        match joblib_load env (model_path env) with
        | Ok (Some m) =>
            HealthResponse.status h = "healthy"
            ∧ HealthResponse.model_version h = Some "v1.0"
            ∧ HealthResponse.model_loaded_at h = Some (utcnow env 0)
            ∧ (∀ features, (predict features env s1).1 ≠ Raise not_loaded)
            ∧ (∀ request, (predict_batch request env s1).1 ≠ Raise not_loaded)
        | Ok None =>
            HealthResponse.status h = "degraded"
            ∧ HealthResponse.model_version h = None
            ∧ HealthResponse.model_loaded_at h = Some (utcnow env 0)
            ∧ (∀ features, (predict features env s1).1 = Raise not_loaded)
            ∧ (∀ request, (predict_batch request env s1).1 = Raise not_loaded)
        | Raise _ =>
            HealthResponse.status h = "degraded"
            ∧ HealthResponse.model_version h = None
            ∧ HealthResponse.model_loaded_at h = None
            ∧ (∀ features, (predict features env s1).1 = Raise not_loaded)
            ∧ (∀ request, (predict_batch request env s1).1 = Raise not_loaded)
        end
      else
        HealthResponse.status h = "degraded"
        ∧ HealthResponse.model_version h = None
        ∧ HealthResponse.model_loaded_at h = None
        ∧ (∀ features, (predict features env s1).1 = Raise not_loaded)
        ∧ (∀ request, (predict_batch request env s1).1 = Raise not_loaded).
Proof.
  cbn zeta.
  assert (Hstart : startup_event env initial =
    (Ok tt, (load_model env (after initial 0 [LogInfo "Starting ML Service..."])).2)).
  { unfold startup_event, logger_info, emit, mbind, M_bind, mret, M_ret, after. cbn.
    destruct (load_model env _) as [[b|e] s'] eqn:Hload; [reflexivity|].
    pose proof (load_model_run env
      {| model := None; model_loaded_at := None; clock := 0%nat;
         trace := [LogInfo "Starting ML Service..."] |}) as (Hret & _).
    rewrite Hload in Hret. discriminate Hret. }
  rewrite Hstart. cbn [snd].
  set (s0 := after initial 0 [LogInfo "Starting ML Service..."]).
  unfold health_check, time_time_, tick, asks, gets, mbind, M_bind, mret, M_ret.
  rewrite (load_model_full env s0). unfold model_path. cbn zeta.
  destruct (path_exists env _).
  2: { cbn. eexists _, _. split; [reflexivity|]. cbn.
       split; [reflexivity|]. split; [reflexivity|]. split; [reflexivity|].
       split.
       - intros features. now rewrite predict_unloaded.
       - intros request. now rewrite predict_batch_unloaded. }
  destruct (joblib_load env _) as [[m|]|e].
  - cbn. eexists _, _. split; [reflexivity|]. cbn.
    split; [reflexivity|]. split; [reflexivity|]. split; [reflexivity|].
    split.
    + intros features. rewrite (predict_full _ _ m) by reflexivity.
      destruct (classify m features) as [[c conf]|e]; discriminate.
    + intros request. rewrite (predict_batch_full _ _ m) by reflexivity.
      destruct (responses _ _ _ _); discriminate.
  - cbn. eexists _, _. split; [reflexivity|]. cbn.
    split; [reflexivity|]. split; [reflexivity|]. split; [reflexivity|].
    split.
    + intros features. now rewrite predict_unloaded.
    + intros request. now rewrite predict_batch_unloaded.
  - cbn. eexists _, _. split; [reflexivity|]. cbn.
    split; [reflexivity|]. split; [reflexivity|]. split; [reflexivity|].
    split.
    + intros features. now rewrite predict_unloaded.
    + intros request. now rewrite predict_batch_unloaded.
Qed.

(** ** Health and root *)

(** X16.  [root] answers in every state without reading the clock or
    leaving a trace.  It reports the same [model_loaded] as [health_check]
    does, but it always names the version "v1.0", also when no model is
    loaded, where [health_check] reports no version. *)
Theorem root_and_health_agree env s :
  ∃ r h s',
    root env s = (Ok r, s)
    ∧ health_check env s = (Ok h, s')
    ∧ RootResponse.model_loaded r = is_ready s
    ∧ HealthResponse.model_loaded h = RootResponse.model_loaded r
    ∧ RootResponse.model_version r = "v1.0"
    ∧ HealthResponse.model_version h =
        (if is_ready s then Some (RootResponse.model_version r) else None)
    ∧ (RootResponse.endpoints r).*2 = ["/health"; "/predict"; "/predict/batch"; "/docs"].
Proof.
  unfold root, health_check, time_time_, tick, asks, gets, mbind, M_bind, mret, M_ret.
  destruct s as [[m|] [d|] ck tr]; cbn; eexists _, _, _;
    (split; [reflexivity|]); (split; [reflexivity|]); cbn; auto 10.
Qed.

(** X17.  The uptime [health_check] reports is the clock reading it takes
    first minus the load time when a load time is recorded; when none is,
    it takes a second reading and reports the first minus the second, the
    earlier reading minus the later one.  The recorded load time is passed
    on as it is. *)
Theorem health_check_uptime env s :
  ∃ h s', health_check env s = (Ok h, s')
    ∧ HealthResponse.model_loaded_at h = model_loaded_at s
    ∧ HealthResponse.uptime_seconds h =
        match model_loaded_at s with
        | Some d => fsub (time_time env (clock s)) (timestamp d)
        | None => fsub (time_time env (clock s)) (time_time env (S (clock s)))
        end
    ∧ clock s' = match model_loaded_at s with
                 | Some _ => S (clock s)
                 | None => S (S (clock s))
                 end.
Proof.
  unfold health_check, time_time_, tick, asks, gets, mbind, M_bind, mret, M_ret.
  destruct s as [mo [d|] ck tr]; cbn; eexists _, _;
    (split; [reflexivity|]); cbn; auto.
Qed.

(** ** Schema validation, continued *)

Lemma valid_bounds r :
  valid r = true →
  Forall (λ field : NetworkTrafficFeatures → Z, 0 ≤ field r)
    [src_bytes; dst_bytes; wrong_fragment; urgent; hot; num_failed_logins;
     num_compromised; num_root; num_file_creations; num_shells;
     num_access_files; num_outbound_cmds; count; srv_count; dst_host_count;
     dst_host_srv_count]
  ∧ Forall (λ field : NetworkTrafficFeatures → Z, field r = 0 ∨ field r = 1)
      [land; logged_in; root_shell; su_attempted; is_host_login; is_guest_login]
  ∧ Forall (λ field : NetworkTrafficFeatures → float,
              fle (float_of_int 0) (field r) = true
              ∧ fle (field r) (float_of_int 1) = true)
      [serror_rate; srv_serror_rate; rerror_rate; srv_rerror_rate;
       same_srv_rate; diff_srv_rate; srv_diff_host_rate;
       dst_host_same_srv_rate; dst_host_diff_srv_rate;
       dst_host_same_src_port_rate; dst_host_srv_diff_host_rate;
       dst_host_serror_rate; dst_host_srv_serror_rate;
       dst_host_rerror_rate; dst_host_srv_rerror_rate].
Proof.
  destruct r. intros H. split_valid H.
  unfold in_range, range_int, range_float in *. cbn in *.
  use_bounds.
  split; [|split];
    repeat match goal with
    | |- Forall _ (_ :: _) => constructor
    | |- Forall _ [] => constructor
    end; cbn; first [lia | split; assumption].
Qed.

Section ValidationMore.

Context (to_float : json → option float)
        (to_int : json → option Z)
        (to_str : json → option string).

(** X18.  What validation lets through is within every declared bound:
    the counts are not negative, the six indicators are 0 or 1, and the
    fifteen rates lie between 0 and 1, whatever the conversions. *)
Theorem accepted_record_within_bounds (d : gmap string json) r
    (Hok : validate to_float to_int to_str d = inr r) :
  Forall (λ field : NetworkTrafficFeatures → Z, 0 ≤ field r)
    [src_bytes; dst_bytes; wrong_fragment; urgent; hot; num_failed_logins;
     num_compromised; num_root; num_file_creations; num_shells;
     num_access_files; num_outbound_cmds; count; srv_count; dst_host_count;
     dst_host_srv_count]
  ∧ Forall (λ field : NetworkTrafficFeatures → Z, field r = 0 ∨ field r = 1)
      [land; logged_in; root_shell; su_attempted; is_host_login; is_guest_login]
  ∧ Forall (λ field : NetworkTrafficFeatures → float,
              fle (float_of_int 0) (field r) = true
              ∧ fle (field r) (float_of_int 1) = true)
      [serror_rate; srv_serror_rate; rerror_rate; srv_rerror_rate;
       same_srv_rate; diff_srv_rate; srv_diff_host_rate;
       dst_host_same_srv_rate; dst_host_diff_srv_rate;
       dst_host_same_src_port_rate; dst_host_srv_diff_host_rate;
       dst_host_serror_rate; dst_host_srv_serror_rate;
       dst_host_rerror_rate; dst_host_srv_rerror_rate].
Proof.
  apply valid_bounds.
  exact (proj2 (validate_accepts to_float to_int to_str d r Hok)).
Qed.

Lemma fields_are_feature_names : model_fields.*1 = FEATURE_NAMES.
Proof. reflexivity. Qed.

Lemma collect_errors_elem d fields name p :
  (name, p) ∈ collect_errors to_float to_int to_str d fields ↔
  ∃ info, (name, info) ∈ fields
        ∧ check to_float to_int to_str info (d !! name) = Some p.
Proof.
  unfold collect_errors. rewrite list_elem_of_omap. split.
  - intros ([n info] & Hin & Hsome). cbn in Hsome.
    destruct (check _ _ _ info (d !! n)) as [p'|] eqn:Hc; [|discriminate].
    cbn in Hsome. injection Hsome as -> ->. eauto.
  - intros (info & Hin & Hc). exists (name, info). split; [assumption|].
    cbn. now rewrite Hc.
Qed.

Lemma all_fields_required :
  Forall (λ fi, field_default fi.2 = Ellipsis) model_fields.
Proof. repeat constructor. Qed.

(** X20.  Every field of the class is declared with [...] in place of a
    default, and so is required: a declared field that the input lacks is
    always reported, as missing. *)
Theorem missing_field_reported (d : gmap string json) name
    (Hname : name ∈ FEATURE_NAMES) (Hmiss : d !! name = None) :
  ∃ errors, validate to_float to_int to_str d = inl errors
          ∧ (name, Missing) ∈ errors.
Proof.
  assert (Hin : (name, Missing) ∈ field_errors to_float to_int to_str d).
  { unfold field_errors.
    apply (proj2 (collect_errors_elem d model_fields name Missing)).
    rewrite <- fields_are_feature_names in Hname.
    apply list_elem_of_fmap in Hname as ([n info] & -> & Hin).
    exists info. split; [exact Hin|]. cbn in *. rewrite Hmiss.
    pose proof (proj1 (Forall_forall _ _) all_fields_required _ Hin) as Hreq.
    cbn in Hreq. unfold check. now rewrite Hreq. }
  unfold validate.
  destruct (field_errors to_float to_int to_str d) as [|err errs];
    [inversion Hin|eauto].
Qed.

End ValidationMore.

Lemma accepted_record_within_bounds_witness :
  validate Sample.to_float Sample.to_int Sample.to_str Sample.benign_body
    = inr Sample.benign
  ∧ Forall (λ field : NetworkTrafficFeatures → Z,
              field Sample.benign = 0 ∨ field Sample.benign = 1)
      [land; logged_in; root_shell; su_attempted; is_host_login; is_guest_login].
Proof.
  assert (H : validate Sample.to_float Sample.to_int Sample.to_str
                Sample.benign_body = inr Sample.benign)
    by (vm_compute; reflexivity).
  split; [exact H|].
  exact (proj1 (proj2 (accepted_record_within_bounds Sample.to_float
                         Sample.to_int Sample.to_str _ _ H))).
Defined.

Lemma missing_field_reported_witness :
  "flag" ∈ FEATURE_NAMES
  ∧ Sample.bad_body !! "flag" = None
  ∧ ∃ errors,
      validate Sample.to_float Sample.to_int Sample.to_str Sample.bad_body
        = inl errors
      ∧ ("flag", Missing) ∈ errors.
Proof.
  assert (H1 : "flag" ∈ FEATURE_NAMES) by (repeat constructor).
  assert (H2 : Sample.bad_body !! "flag" = None) by (vm_compute; reflexivity).
  split; [exact H1|]. split; [exact H2|].
  exact (missing_field_reported Sample.to_float Sample.to_int Sample.to_str
           Sample.bad_body "flag" H1 H2).
Defined.


Section RoundTrip.

Context (to_float : json → option float)
        (to_int : json → option Z)
        (to_str : json → option string).

Lemma collect_errors_nil (d : gmap string json) fields :
  Forall (λ fi, check to_float to_int to_str fi.2 (d !! fi.1) = None) fields →
  collect_errors to_float to_int to_str d fields = [].
Proof.
  induction 1 as [|[n info] fields Hc _ IH]; cbn; [reflexivity|].
  cbn in Hc. now rewrite Hc.
Qed.

(** X22.  Validation gives back what [dict()] took apart: the body a valid
    record serialises to is accepted, and the record built from it is the
    record itself, as soon as the conversions accept a value that already
    has the annotated type. *)
Theorem dict_revalidates r
    (Hfloat : ∀ x, to_float (JFloat x) = Some x)
    (Hint : ∀ n, to_int (JInt n) = Some n)
    (Hstr : ∀ s, to_str (JStr s) = Some s)
    (Hvalid : valid r = true) :
  validate to_float to_int to_str (body_of r) = inr r.
Proof.
  pose proof (valid_bounds r Hvalid) as (Hcount & Hflag & Hrate).
  destruct r.
  repeat match goal with
  | H : Forall _ (_ :: _) |- _ =>
      let Hh := fresh "Hh" in apply Forall_cons in H as [Hh H]; cbn in Hh
  | H : Forall _ [] |- _ => clear H
  end.
  unfold validate, field_errors.
  rewrite collect_errors_nil.
  - unfold construct, get_float, get_int, get_str. read_body. cbn.
    rewrite ?Hfloat, ?Hint, ?Hstr. reflexivity.
  - unfold model_fields.
    repeat match goal with
    | |- Forall _ (_ :: _) => constructor
    | |- Forall _ [] => constructor
    end; cbn [fst snd]; read_body; unfold check, Field; cbn;
      rewrite ?Hfloat, ?Hint, ?Hstr; try reflexivity;
      unfold range_int, range_float; cbn;
      repeat match goal with
      | |- context [?a <=? ?b] => destruct (Z.leb_spec a b); [|lia]
      | H : fle ?a ?b = true |- context [fle ?a ?b] => rewrite H
      | H : _ ∧ _ |- _ => destruct H
      end; reflexivity.
Qed.

End RoundTrip.

Lemma dict_revalidates_witness :
  valid Sample.flood = true
  ∧ validate Sample.to_float Sample.to_int Sample.to_str (body_of Sample.flood)
      = inr Sample.flood.
Proof.
  split; [reflexivity|].
  apply dict_revalidates; try reflexivity.
Defined.
